(** * E-commerce crawler: frontier, classifier, site strategies and engine

    A shallow embedding of [crawler/url_frontier.py],
    [crawler/product_identifier.py], [crawler/base_crawler.py] and the four
    site-specific crawlers, followed by the properties of the design
    document that can be stated over it.

    Python [str] values are modelled as [string]: a sequence of characters
    with code points below 256, each held in an [ascii]. Text with other
    code points is outside the model; the character classes below
    ([is_space], [lower_char], and the digit and case-folding classes of
    the regular expressions) are those of Python on this range. [set] is
    modelled as [gset string]; [collections.deque] as a [list] whose head
    is the left end; [int] as [Z]. *)

From Stdlib Require Import ZArith Ascii String List Bool Lia.
From stdpp Require Import base decidable option list gmap strings.

Local Open Scope string_scope.

(** ** Python string primitives *)

Module Py.

(** [s.rstrip(c)] for a one-character set: drops every trailing [c]. *)
Fixpoint rstrip (c : ascii) (s : string) : string :=
  match s with
  | EmptyString => EmptyString
  | String a s' =>
      match rstrip c s' with
      | EmptyString => if Ascii.eqb a c then EmptyString else String a EmptyString
      | r => String a r
      end
  end.

(** [s.lstrip(c)] for a one-character set. *)
Fixpoint lstrip (c : ascii) (s : string) : string :=
  match s with
  | EmptyString => EmptyString
  | String a s' => if Ascii.eqb a c then lstrip c s' else s
  end.

(** [s.startswith(p)]. *)
Fixpoint startswith (p s : string) : bool :=
  match p, s with
  | EmptyString, _ => true
  | String a p', String b s' => Ascii.eqb a b && startswith p' s'
  | String _ _, EmptyString => false
  end.

(** [needle in hay]. *)
Fixpoint contains (needle hay : string) : bool :=
  startswith needle hay ||
  match hay with
  | EmptyString => false
  | String _ hay' => contains needle hay'
  end.

(** [s.endswith(p)]. *)
Fixpoint endswith (p s : string) : bool :=
  String.eqb p s ||
  match s with
  | EmptyString => false
  | String _ s' => endswith p s'
  end.

(** [c in s] for a single character. *)
Fixpoint has_char (c : ascii) (s : string) : bool :=
  match s with
  | EmptyString => false
  | String a s' => Ascii.eqb a c || has_char c s'
  end.

Definition is_upper (a : ascii) : bool :=
  (65 <=? nat_of_ascii a)%nat && (nat_of_ascii a <=? 90)%nat.
Definition is_lower (a : ascii) : bool :=
  (97 <=? nat_of_ascii a)%nat && (nat_of_ascii a <=? 122)%nat.
Definition is_digit (a : ascii) : bool :=
  (48 <=? nat_of_ascii a)%nat && (nat_of_ascii a <=? 57)%nat.
Definition is_alpha (a : ascii) : bool := is_upper a || is_lower a.
(** [\s] of a [str] pattern, which is [str.isspace]: tab, newline, vertical
    tab, form feed, return, the separators 0x1c to 0x1f, space, and the
    next-line and no-break-space characters 0x85 and 0xa0. *)
Definition is_space (a : ascii) : bool :=
  (nat_of_ascii a =? 32)%nat ||
  ((9 <=? nat_of_ascii a)%nat && (nat_of_ascii a <=? 13)%nat) ||
  ((28 <=? nat_of_ascii a)%nat && (nat_of_ascii a <=? 31)%nat) ||
  (nat_of_ascii a =? 133)%nat || (nat_of_ascii a =? 160)%nat.

(** The capital letters 0xc0 to 0xde, without the multiplication sign. *)
Definition is_upper_latin1 (a : ascii) : bool :=
  (192 <=? nat_of_ascii a)%nat && (nat_of_ascii a <=? 222)%nat &&
  negb (nat_of_ascii a =? 215)%nat.

Definition lower_char (a : ascii) : ascii :=
  if is_upper a || is_upper_latin1 a then ascii_of_nat (nat_of_ascii a + 32)
  else a.

(** [s.lower()] *)
Fixpoint lower (s : string) : string :=
  match s with
  | EmptyString => EmptyString
  | String a s' => String (lower_char a) (lower s')
  end.

(** Every character of [s] satisfies [p]. *)
Fixpoint all_chars (p : ascii → bool) (s : string) : bool :=
  match s with
  | EmptyString => true
  | String a s' => p a && all_chars p s'
  end.

(** The value of a hexadecimal digit. *)
Definition hex_value (a : ascii) : option nat :=
  let n := nat_of_ascii a in
  if is_digit a then Some (n - 48)
  else if (97 <=? n)%nat && (n <=? 102)%nat then Some (n - 87)
  else if (65 <=? n)%nat && (n <=? 70)%nat then Some (n - 55)
  else None.

(** [s.rpartition(c)[2]]: the text after the last [c], all of [s] when [c]
    does not occur. *)
Fixpoint rpartition_tail (c : ascii) (s : string) : string :=
  match s with
  | EmptyString => EmptyString
  | String a s' =>
      if has_char c s' then rpartition_tail c s'
      else if Ascii.eqb a c then s' else s
  end.

(** [s.partition(c)]: the text before the first [c] and, when [c] occurs,
    the text after it. *)
Fixpoint partition (c : ascii) (s : string) : string * option string :=
  match s with
  | EmptyString => (EmptyString, None)
  | String a s' =>
      if Ascii.eqb a c then (EmptyString, Some s')
      else let '(h, t) := partition c s' in (String a h, t)
  end.

(** [s.split(c)]: always at least one piece. *)
Fixpoint split (c : ascii) (s : string) : list string :=
  match s with
  | EmptyString => [EmptyString]
  | String a s' =>
      if Ascii.eqb a c then EmptyString :: split c s'
      else match split c s' with
           | [] => [String a EmptyString]
           | h :: t => String a h :: t
           end
  end.

(** [sep.join(parts)]. *)
Fixpoint join (sep : string) (parts : list string) : string :=
  match parts with
  | [] => EmptyString
  | [p] => p
  | p :: ps => p ++ sep ++ join sep ps
  end.

(** Truthiness of a [str]. *)
Definition truthy (s : string) : bool :=
  match s with EmptyString => false | _ => true end.

(** Truthiness of a [list]. *)
Definition nonempty {A} (l : list A) : bool :=
  match l with [] => false | _ => true end.

End Py.

(** ** crawler/url_frontier.py *)

Record URLFrontier := mkFrontier {
  queue : list string;
  seen_urls : gset string
}.

Module Frontier.

(** [URLFrontier.__init__] *)
Definition new : URLFrontier := mkFrontier [] ∅.

(** The normalisation [add] applies: [url.rstrip('/')]. *)
Definition normalize (url : string) : string := Py.rstrip "/" url.

(** [URLFrontier.add] *)
Definition add (url : string) (f : URLFrontier) : URLFrontier :=
  let normalized_url := normalize url in
  if decide (normalized_url ∈ seen_urls f) then f
  else mkFrontier (queue f ++ [normalized_url]) (seen_urls f ∪ {[normalized_url]}).

(** [URLFrontier.get]: [deque.popleft]; [None] stands for the [IndexError]
    raised on an empty deque. *)
Definition get (f : URLFrontier) : option (string * URLFrontier) :=
  match queue f with
  | [] => None
  | url :: rest => Some (url, mkFrontier rest (seen_urls f))
  end.

(** [URLFrontier.is_empty] *)
Definition is_empty (f : URLFrontier) : bool :=
  (List.length (queue f) =? 0)%nat.

(** [URLFrontier.size] *)
Definition size (f : URLFrontier) : nat := List.length (queue f).

(** A run of [add] calls, first call first. *)
Definition add_all (urls : list string) (f : URLFrontier) : URLFrontier :=
  foldl (fun acc url => add url acc) f urls.

(** [n] successive [get] calls, stopping at the first one that raises. *)
Fixpoint get_n (n : nat) (f : URLFrontier) : list string :=
  match n with
  | O => []
  | S n' =>
      match get f with
      | None => []
      | Some (url, f') => url :: get_n n' f'
      end
  end.

(** Successive [get] calls until [is_empty]. *)
Definition drain (f : URLFrontier) : list string := get_n (size f) f.

(** What every frontier built by [add] and [get] satisfies. *)
Record wf (f : URLFrontier) : Prop := mkWf {
  wf_nodup : NoDup (queue f);
  wf_seen : ∀ u, u ∈ queue f → u ∈ seen_urls f;
  wf_norm : ∀ u, u ∈ queue f → normalize u = u
}.

End Frontier.

(** ** The [re] patterns the crawler uses

    A pattern is compiled by hand into a regular expression over character
    predicates; [search] decides whether some substring matches, which is
    when Python's [re.search] returns a match object. Matching goes by
    derivatives, so it is independent of any backtracking order. *)

Module Re.

Inductive re : Type :=
| Void
| Eps
| Sym (p : ascii → bool)
| Cat (r1 r2 : re)
| Alt (r1 r2 : re)
| Star (r : re).

Fixpoint nullable (r : re) : bool :=
  match r with
  | Void => false
  | Eps => true
  | Sym _ => false
  | Cat r1 r2 => nullable r1 && nullable r2
  | Alt r1 r2 => nullable r1 || nullable r2
  | Star _ => true
  end.

(** Constructors that drop [Void] and [Eps] as they appear. *)
Definition cat (r1 r2 : re) : re :=
  match r1, r2 with
  | Void, _ | _, Void => Void
  | Eps, r | r, Eps => r
  | _, _ => Cat r1 r2
  end.

Definition alt (r1 r2 : re) : re :=
  match r1, r2 with
  | Void, r | r, Void => r
  | _, _ => Alt r1 r2
  end.

Fixpoint deriv (a : ascii) (r : re) : re :=
  match r with
  | Void | Eps => Void
  | Sym p => if p a then Eps else Void
  | Cat r1 r2 =>
      if nullable r1 then alt (cat (deriv a r1) r2) (deriv a r2)
      else cat (deriv a r1) r2
  | Alt r1 r2 => alt (deriv a r1) (deriv a r2)
  | Star r1 => cat (deriv a r1) (Star r1)
  end.

(** The whole of [s] matches [r]. *)
Fixpoint fullmatch (r : re) (s : string) : bool :=
  match s with
  | EmptyString => nullable r
  | String a s' => fullmatch (deriv a r) s'
  end.

Definition chr (c : ascii) : re := Sym (Ascii.eqb c).
Definition any : re := Sym (fun _ => true).
Definition not_chr (c : ascii) : re := Sym (fun a => negb (Ascii.eqb a c)).
(** [\d]: below code point 256 the decimal digits are 0 to 9. *)
Definition digit : re := Sym Py.is_digit.
Definition space : re := Sym Py.is_space.
Definition plus (r : re) : re := Cat r (Star r).
Definition opt (r : re) : re := Alt Eps r.

(** A literal string. *)
Fixpoint lit (s : string) : re :=
  match s with
  | EmptyString => Eps
  | String a s' => Cat (chr a) (lit s')
  end.

(** A literal string under [re.I]; the pattern text is in lower-case ASCII
    letters, which below code point 256 match themselves and their capitals
    only. *)
Fixpoint lit_i (s : string) : re :=
  match s with
  | EmptyString => Eps
  | String a s' => Cat (Sym (fun c => Ascii.eqb (Py.lower_char c) a)) (lit_i s')
  end.

Fixpoint alts (rs : list re) : re :=
  match rs with
  | [] => Void
  | [r] => r
  | r :: rs' => Alt r (alts rs')
  end.

(** A compiled pattern: its body, and whether the text ends in [$]. *)
Record pattern := mkPattern { body : re; dollar : bool }.

Definition pat (r : re) : pattern := mkPattern r false.
Definition pat_end (r : re) : pattern := mkPattern r true.

(** [re.search(p, s)] is not [None]. Without [re.MULTILINE], [$] matches at
    the end of the string and just before a newline that ends the string. *)
Definition search (p : pattern) (s : string) : bool :=
  fullmatch
    (Cat (Star any)
         (Cat (body p) (if dollar p then opt (chr "010"%char) else Star any)))
    s.

End Re.

(** ** [ipaddress]

    The parsing of address literals that [urllib.parse] uses to validate a
    bracketed host. [None] stands for [AddressValueError]. *)

Module Ipaddress.

(** [int(s, base)] on a text of digits of that base. *)
Fixpoint int_of_digits (base acc : Z) (s : string) : Z :=
  match s with
  | EmptyString => acc
  | String a s' =>
      int_of_digits base (acc * base + Z.of_nat (default 0%nat (Py.hex_value a))) s'
  end.

(** [IPv4Address._parse_octet] *)
Definition _parse_octet (octet_str : string) : option Z :=
  if negb (Py.truthy octet_str) then None
  else if negb (Py.all_chars Py.is_digit octet_str) then None
  else if (3 <? String.length octet_str)%nat then None
  else if negb (String.eqb octet_str "0") && Py.startswith "0" octet_str then None
  else
    let octet_int := int_of_digits 10 0 octet_str in
    if (255 <? octet_int)%Z then None else Some octet_int.

(** [int.from_bytes(octets, 'big')] *)
Definition from_bytes (octets : list Z) : Z :=
  fold_left (fun acc b => acc * 256 + b)%Z octets 0%Z.

(** [IPv4Address(address)] on a [str]: the address as an integer. *)
Definition IPv4Address (address : string) : option Z :=
  if Py.has_char "/" address then None
  else if negb (Py.truthy address) then None
  else
    let octets := Py.split "." address in
    if negb (length octets =? 4)%nat then None
    else from_bytes <$> mapM _parse_octet octets.

Definition is_hex (a : ascii) : bool :=
  match Py.hex_value a with Some _ => true | None => false end.

(** [IPv6Address._parse_hextet]; [int('', 16)] raises [ValueError]. *)
Definition _parse_hextet (hextet_str : string) : option Z :=
  if negb (Py.all_chars is_hex hextet_str) then None
  else if (4 <? String.length hextet_str)%nat then None
  else if negb (Py.truthy hextet_str) then None
  else Some (int_of_digits 16 0 hextet_str).

Definition hex_char (d : Z) : ascii :=
  if (d <? 10)%Z then ascii_of_nat (48 + Z.to_nat d)
  else ascii_of_nat (87 + Z.to_nat d).

Fixpoint hex_digits (n : nat) (x : Z) (acc : string) : string :=
  match n with
  | O => acc
  | S n' =>
      let acc := String (hex_char (x mod 16)) acc in
      if (x / 16 =? 0)%Z then acc else hex_digits n' (x / 16) acc
  end.

(** ['%x' % x] for [0 <= x < 65536]. *)
Definition format_x (x : Z) : string := hex_digits 4 x EmptyString.

(** The loop over [range(1, len(parts) - 1)] that looks for the empty part
    of a [::]; [parts] is [parts[1:-1]] and [i] the index of its head.
    [None] when a second empty part is found. *)
Fixpoint find_skip (parts : list string) (i : nat) (skip_index : option nat)
  : option (option nat) :=
  match parts with
  | [] => Some skip_index
  | p :: rest =>
      if Py.truthy p then find_skip rest (S i) skip_index
      else match skip_index with
           | Some _ => None
           | None => find_skip rest (S i) (Some i)
           end
  end.

(** [ip_int <<= 16; ip_int |= hextet] over the hextets. *)
Definition shift_in (ip_int : Z) (hextets : list Z) : Z :=
  fold_left (fun acc h => Z.lor (Z.shiftl acc 16) h) hextets ip_int.

(** [IPv6Address._ip_int_from_string] *)
Definition _ip_int_from_string (ip_str : string) : option Z :=
  if negb (Py.truthy ip_str) then None
  else
    let parts := Py.split ":" ip_str in
    if (length parts <? 3)%nat then None
    else
      parts ←
        (if Py.has_char "." (List.last parts EmptyString) then
           ipv4_int ← IPv4Address (List.last parts EmptyString);
           Some (removelast parts ++
                 [format_x (Z.land (Z.shiftr ipv4_int 16) 65535);
                  format_x (Z.land ipv4_int 65535)])%list
         else Some parts);
      if (9 <? length parts)%nat then None
      else
        skip_index ← find_skip (removelast (tail parts)) 1 None;
        '(parts_hi, parts_lo, parts_skipped) ←
          match skip_index with
          | Some skip_index =>
              let parts_hi := skip_index in
              let parts_lo := (length parts - skip_index - 1)%nat in
              parts_hi ←
                (if negb (Py.truthy (hd EmptyString parts)) then
                   if (parts_hi - 1 =? 0)%nat then Some (parts_hi - 1)%nat else None
                 else Some parts_hi);
              parts_lo ←
                (if negb (Py.truthy (List.last parts EmptyString)) then
                   if (parts_lo - 1 =? 0)%nat then Some (parts_lo - 1)%nat else None
                 else Some parts_lo);
              let parts_skipped := (8 - Z.of_nat (parts_hi + parts_lo))%Z in
              if (parts_skipped <? 1)%Z then None
              else Some (parts_hi, parts_lo, parts_skipped)
          | None =>
              if negb (length parts =? 8)%nat then None
              else if negb (Py.truthy (hd EmptyString parts)) then None
              else if negb (Py.truthy (List.last parts EmptyString)) then None
              else Some (length parts, 0%nat, 0%Z)
          end;
        hi ← mapM _parse_hextet (take parts_hi parts);
        lo ← mapM _parse_hextet (drop (length parts - parts_lo) parts);
        Some (shift_in (Z.shiftl (shift_in 0 hi) (16 * parts_skipped)) lo).

(** [IPv6Address(address)] on a [str]: the address as an integer; the scope
    id that may follow a [%] is checked and set aside. *)
Definition IPv6Address (address : string) : option Z :=
  if Py.has_char "/" address then None
  else
    match Py.partition "%" address with
    | (addr, None) => _ip_int_from_string addr
    | (addr, Some scope_id) =>
        if negb (Py.truthy scope_id) || Py.has_char "%" scope_id then None
        else _ip_int_from_string addr
    end.

Inductive ip : Type :=
| V4 (ip_int : Z)
| V6 (ip_int : Z).

(** [ip_address(address)]; [None] for its [ValueError]. *)
Definition ip_address (address : string) : option ip :=
  match IPv4Address address with
  | Some i => Some (V4 i)
  | None =>
      match IPv6Address address with
      | Some i => Some (V6 i)
      | None => None
      end
  end.

End Ipaddress.

(** ** [urllib.parse]

    A model of the functions of the standard library the crawler calls:
    [urlparse], [parse_qs] and [urljoin], following CPython 3.11. [None]
    stands for the [ValueError] that [urlsplit] raises on a network location
    with an unmatched square bracket, or with a bracketed host that is not
    an IPv6 or IPvFuture literal (the check [_check_bracketed_netloc], in
    CPython since 3.11.4). The NFKC check of a non-ASCII network
    location never raises on text below code point 256, where no character
    normalises to one of [/?#@:], so it has no counterpart here. Not
    modelled: the UTF-8 decoding done by [unquote] (a decoded byte stays a
    character here). *)

Module Urllib.

Record ParseResult := mkParse {
  scheme : string;
  netloc : string;
  path : string;
  params : string;
  query : string;
  fragment : string
}.

Definition scheme_char (a : ascii) : bool :=
  Py.is_alpha a || Py.is_digit a ||
  Ascii.eqb a "+" || Ascii.eqb a "-" || Ascii.eqb a ".".

Fixpoint filter_chars (p : ascii → bool) (s : string) : string :=
  match s with
  | EmptyString => EmptyString
  | String a s' => if p a then String a (filter_chars p s') else filter_chars p s'
  end.

(** [url.lstrip(_WHATWG_C0_CONTROL_OR_SPACE)] *)
Fixpoint lstrip_c0 (s : string) : string :=
  match s with
  | EmptyString => EmptyString
  | String a s' => if (nat_of_ascii a <=? 32)%nat then lstrip_c0 s' else s
  end.

(** The tab, carriage return and newline that [urlsplit] deletes. *)
Definition unsafe_byte (a : ascii) : bool :=
  (nat_of_ascii a =? 9)%nat || (nat_of_ascii a =? 10)%nat || (nat_of_ascii a =? 13)%nat.

(** [_splitnetloc(url, 2)] on the text that follows the two slashes. *)
Fixpoint splitnetloc (s : string) : string * string :=
  match s with
  | EmptyString => (EmptyString, EmptyString)
  | String a s' =>
      if Ascii.eqb a "/" || Ascii.eqb a "?" || Ascii.eqb a "#" then (EmptyString, s)
      else let '(n, rest) := splitnetloc s' in (String a n, rest)
  end.

(** The scheme split of [urlsplit]: [Some (scheme, rest)] when the text
    before the first colon is a scheme. *)
Definition split_scheme (url : string) : option (string * string) :=
  match Py.partition ":" url with
  | (String a _ as pre, Some rest) =>
      if Py.is_alpha a && Py.all_chars scheme_char pre then Some (Py.lower pre, rest)
      else None
  | _ => None
  end.

(** The pattern [\Av[a-fA-F0-9]+\..+\Z] of an IPvFuture literal. *)
Definition ipvfuture : Re.re :=
  Re.Cat (Re.chr "v")
    (Re.Cat (Re.plus (Re.Sym Ipaddress.is_hex))
       (Re.Cat (Re.chr ".") (Re.plus (Re.not_chr "010")))).

(** [_check_bracketed_host]: [false] for the [ValueError]. An IPv4 address
    is refused in brackets. *)
Definition _check_bracketed_host (hostname : string) : bool :=
  if Py.startswith "v" hostname then Re.fullmatch ipvfuture hostname
  else
    match Ipaddress.ip_address hostname with
    | Some (Ipaddress.V6 _) => true
    | Some (Ipaddress.V4 _) => false
    | None => false
    end.

(** [_check_bracketed_netloc]: [false] for the [ValueError]. *)
Definition _check_bracketed_netloc (netloc : string) : bool :=
  let hostname_and_port := Py.rpartition_tail "@" netloc in
  match Py.partition "[" hostname_and_port with
  | (before_bracket, Some bracketed) =>
      if Py.truthy before_bracket then false
      else
        let '(hostname, port) := Py.partition "]" bracketed in
        let port := default EmptyString port in
        if Py.truthy port && negb (Py.startswith ":" port) then false
        else _check_bracketed_host hostname
  | (_, None) =>
      _check_bracketed_host (fst (Py.partition ":" hostname_and_port))
  end.

(** [urlsplit(url, scheme)], with the path still holding any parameters. *)
Definition urlsplit (url default_scheme : string) : option ParseResult :=
  let url := filter_chars (fun a => negb (unsafe_byte a)) (lstrip_c0 url) in
  let '(sch, url) :=
    match split_scheme url with
    | Some (s, rest) => (s, rest)
    | None => (default_scheme, url)
    end in
  let '(net, url) :=
    match url with
    | String "/" (String "/" rest) => splitnetloc rest
    | _ => (EmptyString, url)
    end in
  if xorb (Py.has_char "[" net) (Py.has_char "]" net) then None
  else if Py.has_char "[" net && Py.has_char "]" net
          && negb (_check_bracketed_netloc net) then None
  else
    let '(url, frag) := Py.partition "#" url in
    let '(url, qry) := Py.partition "?" url in
    Some (mkParse sch net url EmptyString (default EmptyString qry)
                  (default EmptyString frag)).

Definition uses_relative : list string :=
  [""; "ftp"; "http"; "gopher"; "nntp"; "imap"; "wais"; "file"; "https";
   "shttp"; "mms"; "prospero"; "rtsp"; "rtspu"; "sftp"; "svn"; "svn+ssh";
   "ws"; "wss"].

Definition uses_netloc : list string :=
  [""; "ftp"; "http"; "gopher"; "nntp"; "telnet"; "imap"; "wais"; "file";
   "mms"; "https"; "shttp"; "snews"; "prospero"; "rtsp"; "rtspu"; "rsync";
   "svn"; "svn+ssh"; "sftp"; "nfs"; "git"; "git+ssh"; "ws"; "wss"].

Definition uses_params : list string :=
  [""; "ftp"; "hdl"; "prospero"; "http"; "imap"; "https"; "shttp"; "rtsp";
   "rtspu"; "sip"; "sips"; "mms"; "sftp"; "tel"].

Definition mem (s : string) (l : list string) : bool :=
  existsb (String.eqb s) l.

(** [_splitparams]: the parameters follow the first [;] of the last path
    segment. *)
Definition splitparams (url : string) : string * string :=
  if Py.has_char "/" url then
    let segs := Py.split "/" url in
    let head := Py.join "/" (removelast segs) ++ "/" in
    match Py.partition ";" (List.last segs EmptyString) with
    | (pre, Some post) => (head ++ pre, post)
    | (_, None) => (url, EmptyString)
    end
  else
    let '(pre, post) := Py.partition ";" url in (pre, default EmptyString post).

(** [urlparse(url, scheme)] *)
Definition urlparse (url default_scheme : string) : option ParseResult :=
  match urlsplit url default_scheme with
  | None => None
  | Some r =>
      if mem (scheme r) uses_params && Py.has_char ";" (path r) then
        let '(p, prm) := splitparams (path r) in
        Some (mkParse (scheme r) (netloc r) p prm (query r) (fragment r))
      else Some r
  end.

(** [urlunparse] *)
Definition urlunparse (r : ParseResult) : string :=
  let url := if Py.truthy (params r) then path r ++ ";" ++ params r else path r in
  let url :=
    if Py.truthy (netloc r) ||
       (Py.truthy (scheme r) && mem (scheme r) uses_netloc
        && negb (Py.startswith "//" url))
    then
      let url := if Py.truthy url && negb (Py.startswith "/" url)
                 then "/" ++ url else url in
      "//" ++ netloc r ++ url
    else url in
  let url := if Py.truthy (scheme r) then scheme r ++ ":" ++ url else url in
  let url := if Py.truthy (query r) then url ++ "?" ++ query r else url in
  if Py.truthy (fragment r) then url ++ "#" ++ fragment r else url.

(** The path resolution loop of [urljoin]; [acc] is [resolved_path] with its
    last element first. *)
Fixpoint resolve (segments acc : list string) : list string :=
  match segments with
  | [] => rev acc
  | seg :: rest =>
      if String.eqb seg ".." then resolve rest (tail acc)
      else if String.eqb seg "." then resolve rest acc
      else resolve rest (seg :: acc)
  end.

(** [segments[1:-1] = filter(None, segments[1:-1])] *)
Definition drop_inner_empty (segments : list string) : list string :=
  match segments with
  | first :: (_ :: _) as rest =>
      first :: (List.filter Py.truthy (removelast rest) ++ [List.last rest EmptyString])%list
  | _ => segments
  end.

(** [urljoin(base, url)] *)
Definition urljoin (base url : string) : option string :=
  if negb (Py.truthy base) then Some url
  else if negb (Py.truthy url) then Some base
  else
    match urlparse base EmptyString with
    | None => None
    | Some b =>
        match urlparse url (scheme b) with
        | None => None
        | Some u =>
            if negb (String.eqb (scheme u) (scheme b)) || negb (mem (scheme u) uses_relative)
            then Some url
            else if mem (scheme u) uses_netloc && Py.truthy (netloc u)
            then Some (urlunparse u)
            else
              let net := if mem (scheme u) uses_netloc then netloc b else netloc u in
              if negb (Py.truthy (path u)) && negb (Py.truthy (params u)) then
                let qry := if Py.truthy (query u) then query u else query b in
                Some (urlunparse
                        (mkParse (scheme u) net (path b) (params b) qry (fragment u)))
              else
                let base_parts := Py.split "/" (path b) in
                let base_parts :=
                  if Py.truthy (List.last base_parts EmptyString)
                  then removelast base_parts else base_parts in
                let segments :=
                  if Py.startswith "/" (path u) then Py.split "/" (path u)
                  else drop_inner_empty (base_parts ++ Py.split "/" (path u))%list in
                let resolved_path := resolve segments [] in
                let last_seg := List.last segments EmptyString in
                let resolved_path :=
                  if String.eqb last_seg "." || String.eqb last_seg ".."
                  then (resolved_path ++ [EmptyString])%list else resolved_path in
                let joined := Py.join "/" resolved_path in
                Some (urlunparse
                        (mkParse (scheme u) net
                                 (if Py.truthy joined then joined else "/")
                                 (params u) (query u) (fragment u)))
        end
    end.

(** [unquote]: every [%XX] with two hexadecimal digits becomes the byte. *)
Fixpoint unquote (s : string) : string :=
  match s with
  | String "%" (String h (String l rest) as s') =>
      match Py.hex_value h, Py.hex_value l with
      | Some x, Some y => String (ascii_of_nat (16 * x + y)) (unquote rest)
      | _, _ => String "%" (unquote s')
      end
  | String a s' => String a (unquote s')
  | EmptyString => EmptyString
  end.

(** [name.replace('+', ' ')] *)
Fixpoint plus_to_space (s : string) : string :=
  match s with
  | EmptyString => EmptyString
  | String a s' => String (if Ascii.eqb a "+" then " "%char else a) (plus_to_space s')
  end.

(** The keys of [parse_qs(qs)]: the decoded names of the [&]-separated
    fields that have an [=] and a non-empty value. *)
Definition parse_qs_keys (qs : string) : list string :=
  if negb (Py.truthy qs) then []
  else
    omap (fun name_value =>
            match Py.partition "=" name_value with
            | (name, Some value) =>
                if Py.truthy value then Some (unquote (plus_to_space name)) else None
            | (_, None) => None
            end)
         (Py.split "&" qs).

End Urllib.

(** ** The parsed document

    What [BeautifulSoup(html, 'html.parser')] hands to the crawler: a tree of
    tags and text. An attribute value is kept as the text of the attribute;
    for [class], which BeautifulSoup splits at white space and matches token
    by token and then joined, every test the crawler makes looks for a needle
    without white space, so it holds of a token exactly when it holds of the
    whole text. *)

Inductive node : Type :=
| Text (s : string)
| Tag (name : string) (attrs : gmap string string) (contents : list node).

(** The [contents] of the [BeautifulSoup] object. *)
Definition document : Type := list node.

Module Soup.

(** A node followed by everything below it, in document order. *)
Fixpoint subtree (n : node) : list node :=
  n :: match n with
       | Text _ => []
       | Tag _ _ cs => flat_map subtree cs
       end.

(** [tag.descendants] *)
Definition descendants (n : node) : list node :=
  match n with
  | Text _ => []
  | Tag _ _ cs => flat_map subtree cs
  end.

Definition doc_descendants (d : document) : list node := flat_map subtree d.

(** [tag.get(key)] *)
Definition get (key : string) (n : node) : option string :=
  match n with
  | Text _ => None
  | Tag _ attrs _ => attrs !! key
  end.

(** A tag whose name is one of [names]. *)
Definition is_tag (names : list string) (n : node) : bool :=
  match n with
  | Text _ => false
  | Tag name _ _ => Urllib.mem name names
  end.

(** An attribute filter: the attribute is present and its value satisfies
    [p]. Every filter the crawler passes rejects a missing attribute. *)
Definition attr_is (key : string) (p : string → bool) (n : node) : bool :=
  match get key n with
  | Some v => p v
  | None => false
  end.

(** [tag.string]: the text of a tag whose only child is a text, or whose only
    child is a tag that has a [string]. *)
Fixpoint string_of (n : node) : option string :=
  match n with
  | Text s => Some s
  | Tag _ _ [c] => string_of c
  | Tag _ _ _ => None
  end.

(** [find_all(names, ...)] over a list of candidate nodes. *)
Definition select (names : list string) (p : node → bool) (ns : list node) : list node :=
  List.filter (fun n => is_tag names n && p n) ns.

(** [soup.find_all(names, ...)] *)
Definition find_all (names : list string) (p : node → bool) (d : document) : list node :=
  select names p (doc_descendants d).

(** [soup.find(name, ...)] *)
Definition find (names : list string) (p : node → bool) (d : document) : option node :=
  head (find_all names p d).

(** [tag.find_all(names, ...)] and [tag.find(name, ...)] *)
Definition tag_find_all (names : list string) (p : node → bool) (n : node) : list node :=
  select names p (descendants n).
Definition tag_find (names : list string) (p : node → bool) (n : node) : option node :=
  head (tag_find_all names p n).

End Soup.

(** The double quote, which the patterns below look for. *)
Definition dq : string := String "034"%char EmptyString.

(** ** crawler/product_identifier.py *)

Module ProductIdentifier.

Definition product_url_patterns : list Re.pattern :=
  map (fun s => Re.pat (Re.lit s))
      ["/product/"; "/p/"; "/item/"; "/products/"; "/pd/"; "/buy/"; "/shop/"].

Definition product_query_params : list string :=
  ["product"; "productId"; "pid"; "itemId"; "sku"; "productCode"].

Definition product_indicators : list string :=
  ["add to cart"; "add to bag"; "buy now"; "product details";
   "product description"; "specifications"; "shipping"; "size chart"].

(** [_check_url_pattern]; [None] when [urlparse] raises. *)
Definition _check_url_pattern (url : string) : option bool :=
  if existsb (fun pattern => Re.search pattern url) product_url_patterns then Some true
  else
    match Urllib.urlparse url EmptyString with
    | None => None
    | Some parsed_url =>
        let query_params := Urllib.parse_qs_keys (Urllib.query parsed_url) in
        Some (existsb (fun param => Urllib.mem param query_params) product_query_params)
    end.

(** The indicator loop of [_check_page_content]: [inl tt] when it returns
    [True] at the second hit, [inr count] when it runs to the end. *)
Fixpoint count_indicators (indicators : list string) (html_lower : string)
    (indicator_count : nat) : unit + nat :=
  match indicators with
  | [] => inr indicator_count
  | indicator :: rest =>
      if Py.contains indicator html_lower then
        if (2 <=? S indicator_count)%nat then inl tt
        else count_indicators rest html_lower (S indicator_count)
      else count_indicators rest html_lower indicator_count
  end.

Definition price_class : Re.pattern :=
  Re.pat (Re.alts (map Re.lit_i ["price"; "cost"; "mrp"; "amount"])).
Definition qty_class : Re.pattern :=
  Re.pat (Re.alts (map Re.lit_i ["qty"; "quantity"; "size"; "option"])).

(** [_check_page_content] *)
Definition _check_page_content (html : string) (soup : document) : bool :=
  let html_lower := Py.lower html in
  match count_indicators product_indicators html_lower 0 with
  | inl _ => true
  | inr indicator_count =>
      let price_elements :=
        Soup.find_all ["span"; "div"; "p"] (Soup.attr_is "class" (Re.search price_class)) soup in
      if Py.nonempty price_elements && (0 <? indicator_count)%nat then true
      else
        let qty_elements :=
          Soup.find_all ["select"; "input"; "div"]
                        (Soup.attr_is "class" (Re.search qty_class)) soup in
        Py.nonempty qty_elements && (0 <? indicator_count)%nat
  end.

Definition product_meta : Re.pattern :=
  Re.pat (Re.Alt (Re.lit "product:") (Re.lit "og:price")).

(** [_check_metadata] *)
Definition _check_metadata (soup : document) : bool :=
  let schema := Soup.find ["script"] (Soup.attr_is "type" (String.eqb "application/ld+json")) soup in
  let ld :=
    match schema with
    | Some tag =>
        match Soup.string_of tag with
        | Some s =>
            Py.truthy s && Py.contains (dq ++ "@type" ++ dq) s &&
            (Py.contains (dq ++ "Product" ++ dq) s ||
             Py.contains (dq ++ "product" ++ dq) (Py.lower s))
        | None => false
        end
    | None => false
    end in
  if ld then true
  else
    let og_type := Soup.find ["meta"] (Soup.attr_is "property" (String.eqb "og:type")) soup in
    let og :=
      match og_type with
      | Some tag =>
          match Soup.get "content" tag with
          | Some v => String.eqb v "product"
          | None => false
          end
      | None => false
      end in
    if og then true
    else
      let product_meta_tags :=
        Soup.find_all ["meta"] (Soup.attr_is "property" (Re.search product_meta)) soup in
      Py.nonempty product_meta_tags.

(** [is_product_page]; [None] when [_check_url_pattern] raises. *)
Definition is_product_page (url html : string) (soup : document) : option bool :=
  match _check_url_pattern url with
  | None => None
  | Some true => Some true
  | Some false =>
      if _check_page_content html soup then Some true
      else if _check_metadata soup then Some true
      else Some false
  end.

End ProductIdentifier.

(** ** crawler/base_crawler.py *)

(** The mutable fields of a [Crawler] object. *)
Record Crawler := mkCrawler {
  domain : string;
  max_urls : Z;
  concurrency : Z;
  frontier : URLFrontier;
  visited_urls : gset string;
  product_urls : gset string
}.

Definition set_frontier (f : URLFrontier) (c : Crawler) : Crawler :=
  mkCrawler (domain c) (max_urls c) (concurrency c) f (visited_urls c) (product_urls c).
Definition add_visited (url : string) (c : Crawler) : Crawler :=
  mkCrawler (domain c) (max_urls c) (concurrency c) (frontier c)
            (visited_urls c ∪ {[url]}) (product_urls c).
Definition add_product (url : string) (c : Crawler) : Crawler :=
  mkCrawler (domain c) (max_urls c) (concurrency c) (frontier c)
            (visited_urls c) (product_urls c ∪ {[url]}).

(** What the transport and the parser give back for one URL:
    [session.get] raises; or it answers with a status and, when the body is
    read and parsed without an exception, the text and its document. *)
Inductive fetch_result : Type :=
| TransportError
| Response (status : Z) (body : option (string * document)).

(** How a call ends: it returns, or an exception leaves it. *)
Inductive completion : Type := Returned | Raised.

(** The loop [for link in links: if self.should_crawl(link):
    self.frontier.add(link)]; it stops where [should_crawl] raises. *)
Fixpoint enqueue_links (should_crawl : string → option bool) (links : list string)
    (f : URLFrontier) : URLFrontier * completion :=
  match links with
  | [] => (f, Returned)
  | link :: rest =>
      match should_crawl link with
      | None => (f, Raised)
      | Some true => enqueue_links should_crawl rest (Frontier.add link f)
      | Some false => enqueue_links should_crawl rest f
      end
  end.

Module Base.

(** The loop of [extract_links] over the anchors; [None] when [urljoin]
    raises. *)
Fixpoint join_anchors (base_url : string) (anchors : list node) : option (list string) :=
  match anchors with
  | [] => Some []
  | anchor :: rest =>
      let href := default EmptyString (Soup.get "href" anchor) in
      if negb (Py.truthy href) || Py.startswith "javascript:" href
      then join_anchors base_url rest
      else
        absolute_url ← Urllib.urljoin base_url href;
        links ← join_anchors base_url rest;
        Some (absolute_url :: links)
  end.

(** [Crawler.extract_links] *)
Definition extract_links (soup : document) (base_url : string) : option (list string) :=
  join_anchors base_url (Soup.find_all ["a"] (Soup.attr_is "href" (fun _ => true)) soup).

Definition skipped_extensions : list string :=
  [".css"; ".js"; ".jpg"; ".jpeg"; ".png"; ".gif"; ".svg"].

(** [Crawler.should_crawl]; [None] when [urlparse] raises. *)
Definition should_crawl (self_domain url : string) : option bool :=
  parsed_url ← Urllib.urlparse url EmptyString;
  parsed_domain ← Urllib.urlparse self_domain EmptyString;
  Some (if negb (String.eqb (Urllib.netloc parsed_url) (Urllib.netloc parsed_domain)) then false
        else if Py.truthy (Urllib.fragment parsed_url) then false
        else if existsb (fun ext => Py.endswith ext url) skipped_extensions then false
        else true).

(** The [try] block of [Crawler.process_url], with the methods it calls on
    [self] as arguments: a subclass that overrides them is reached from
    here. *)
Definition process_url_try
    (extract : document → string → option (list string))
    (should : string → option bool)
    (c : Crawler) (url : string) (r : fetch_result) : Crawler * completion :=
  match r with
  | TransportError => (c, Raised)
  | Response status body =>
      if negb (status =? 200)%Z then (c, Returned)
      else
        match body with
        | None => (c, Raised)
        | Some (html, soup) =>
            match ProductIdentifier.is_product_page url html soup with
            | None => (c, Raised)
            | Some is_product =>
                let c := if is_product then add_product url c else c in
                match extract soup url with
                | None => (c, Raised)
                | Some links =>
                    let '(f, k) := enqueue_links should links (frontier c) in
                    (set_frontier f c, k)
                end
            end
        end
  end.

(** [Crawler.process_url]: both [except] clauses log and fall through. *)
Definition process_url_with
    (extract : document → string → option (list string))
    (should : string → option bool)
    (c : Crawler) (url : string) (r : fetch_result) : Crawler * completion :=
  (fst (process_url_try extract should c url r), Returned).

Definition process_url (c : Crawler) (url : string) (r : fetch_result)
    : Crawler * completion :=
  process_url_with extract_links (should_crawl (domain c)) c url r.

End Base.

(** The loop [for pattern in patterns: if re.search(pattern, url):
    self.product_urls.add(url); break] of the site crawlers. *)
Definition add_if_any_pattern (patterns : list Re.pattern) (url : string) (c : Crawler) : Crawler :=
  if existsb (fun pattern => Re.search pattern url) patterns then add_product url c else c.

(** [for path in excluded_paths: if path in url: return False] *)
Definition excluded (excluded_paths : list string) (url : string) : bool :=
  existsb (fun path => Py.contains path url) excluded_paths.

(** ** crawler/site_specific/virgio_crawler.py *)

Module Virgio.

Definition listing : Re.pattern :=
  Re.pat (Re.Alt (Re.lit "/collection/") (Re.lit "/category/")).
Definition product_suffix : Re.pattern :=
  Re.pat_end (Re.Cat (Re.lit "-p") (Re.plus Re.digit)).

(** [VirgioCrawler.process_url] *)
Definition process_url (c : Crawler) (url : string) (r : fetch_result)
    : Crawler * completion :=
  let c := fst (Base.process_url c url r) in
  (if Re.search listing url && Re.search product_suffix url then add_product url c else c,
   Returned).

End Virgio.

(** ** crawler/site_specific/westside_crawler.py *)

Module Westside.

Definition seg : Re.re := Re.plus (Re.not_chr "/").
Definition slug_char (a : ascii) : bool :=
  Py.is_alpha a || Py.is_digit a || Ascii.eqb a "-".

Definition westside_product_patterns : list Re.pattern :=
  [ Re.pat (Re.lit "/product/");
    Re.pat (Re.Cat (Re.chr "/") (Re.Cat seg (Re.Cat (Re.chr "/") (Re.Cat seg
           (Re.Cat (Re.chr "/") (Re.Cat (Re.plus (Re.Sym slug_char))
           (Re.Cat (Re.chr "-") (Re.Cat (Re.plus Re.digit) (Re.lit ".html")))))))));
    Re.pat (Re.Cat (Re.chr "/") (Re.Cat seg (Re.Cat (Re.chr "/") (Re.Cat seg
           (Re.Cat (Re.chr "/") (Re.Cat seg (Re.lit "?productid=")))))))
  ].

(** [WestsideCrawler._normalize_url] *)
Definition _normalize_url (self_domain base_url href : string) : string :=
  if Py.startswith "//" href then "https:" ++ href
  else if Py.startswith "/" href then Py.rstrip "/" self_domain ++ href
  else if negb (Py.startswith "http://" href || Py.startswith "https://" href)
  then Py.rstrip "/" self_domain ++ "/" ++ Py.lstrip "/" href
  else href.

(** The body of the loop over the product elements: the link it appends, if
    any. *)
Definition product_link (self_domain base_url : string) (product : node) : option string :=
  match Soup.tag_find ["a"] (fun _ => true) product with
  | Some link_tag =>
      let href := default EmptyString (Soup.get "href" link_tag) in
      if Py.truthy href then
        let href :=
          if negb (Py.truthy href) || String.eqb href "#"
          then default EmptyString (Soup.get "data-product-url" link_tag) else href in
        if Py.truthy href then Some (_normalize_url self_domain base_url href) else None
      else None
  | None => None
  end.

(** [WestsideCrawler.extract_links] *)
Definition extract_links (self_domain : string) (soup : document) (base_url : string)
    : option (list string) :=
  links ← Base.extract_links soup base_url;
  let product_elements :=
    Soup.find_all ["div"]
      (Soup.attr_is "class"
         (fun c => Py.truthy c &&
                   (Py.contains "product-item" c || Py.contains "product-tile" c)))
      soup in
  Some (links ++ omap (product_link self_domain base_url) product_elements)%list.

Definition excluded_paths : list string :=
  ["/login"; "/register"; "/wishlist"; "/checkout"; "/search"; "/cart";
   "/customer"; "/store-locator"].

(** [WestsideCrawler.should_crawl] *)
Definition should_crawl (self_domain url : string) : option bool :=
  ok ← Base.should_crawl self_domain url;
  Some (if negb ok then false
        else if excluded excluded_paths url then false
        else true).

(** [WestsideCrawler.process_url] *)
Definition process_url (c : Crawler) (url : string) (r : fetch_result)
    : Crawler * completion :=
  let c := fst (Base.process_url_with (extract_links (domain c))
                                      (should_crawl (domain c)) c url r) in
  (add_if_any_pattern westside_product_patterns url c, Returned).

End Westside.

(** ** crawler/site_specific/tatacliq_crawler.py *)

Module Tatacliq.

Definition tatacliq_product_patterns : list Re.pattern :=
  [ Re.pat (Re.Cat (Re.lit "/p-") (Re.plus Re.digit));
    Re.pat (Re.lit "pdp/");
    Re.pat (Re.Cat (Re.lit "-p-") (Re.plus Re.digit));
    Re.pat (Re.lit "/product-details/") ].

(** The filter [lambda s: s and 'add to' in s.lower()] on [tag.string]. *)
Definition says_add_to (n : node) : bool :=
  match Soup.string_of n with
  | Some s => Py.truthy s && Py.contains "add to" (Py.lower s)
  | None => false
  end.

(** [TatacliqCrawler._check_product_metadata] *)
Definition _check_product_metadata (soup : document) : bool :=
  let product_meta :=
    Soup.find ["meta"]
      (fun n => Soup.attr_is "property" (String.eqb "og:type") n &&
                Soup.attr_is "content" (String.eqb "product") n) soup in
  if bool_decide (is_Some product_meta) then true
  else
    let price_elements :=
      Soup.find_all ["span"; "div"]
        (Soup.attr_is "class" (fun c => Py.truthy c && Py.contains "price" (Py.lower c)))
        soup in
    if (1 <? List.length price_elements)%nat then true
    else
      let cart_buttons := Soup.find_all ["button"; "a"] says_add_to soup in
      Py.nonempty cart_buttons.

Definition colon_sep : Re.re :=
  Re.Cat (Re.Star Re.space) (Re.Cat (Re.chr ":") (Re.Star Re.space)).

Definition script_patterns : list Re.pattern :=
  [ Re.pat (Re.Cat (Re.lit (dq ++ "productId" ++ dq))
           (Re.Cat colon_sep (Re.Cat (Re.chr "034") (Re.plus (Re.not_chr "034")))));
    Re.pat (Re.Cat (Re.lit (dq ++ "product" ++ dq)) (Re.Cat colon_sep (Re.chr "{")));
    Re.pat (Re.lit "productDetails");
    Re.pat (Re.lit "pdpPageData") ].

(** [TatacliqCrawler._check_product_scripts] *)
Definition _check_product_scripts (html : string) : bool :=
  existsb (fun pattern => Re.search pattern html) script_patterns.

(** [TatacliqCrawler._normalize_url] *)
Definition _normalize_url (self_domain base_url href : string) : string :=
  if Py.startswith "//" href then "https:" ++ href
  else if Py.startswith "/" href then Py.rstrip "/" self_domain ++ href
  else if negb (Py.startswith "http" href)
  then Py.rstrip "/" self_domain ++ "/" ++ Py.lstrip "/" href
  else href.

Definition is_div (n : node) : bool := Soup.is_tag ["div"] n.

(** The body of the loop over the product cards: the link it appends, if
    any. *)
Definition card_link (self_domain base_url : string) (card : node) : option string :=
  let link := default EmptyString (Soup.get "href" card) in
  let link :=
    if negb (Py.truthy link) && is_div card then
      match Soup.tag_find ["a"] (fun _ => true) card with
      | Some link_tag => default EmptyString (Soup.get "href" link_tag)
      | None => link
      end
    else link in
  if Py.truthy link then Some (_normalize_url self_domain base_url link) else None.

(** [TatacliqCrawler.extract_links] *)
Definition extract_links (self_domain : string) (soup : document) (base_url : string)
    : option (list string) :=
  links ← Base.extract_links soup base_url;
  let product_cards :=
    Soup.find_all ["div"; "a"]
      (Soup.attr_is "class" (fun c => Py.truthy c && Py.contains "product" (Py.lower c)))
      soup in
  Some (links ++ omap (card_link self_domain base_url) product_cards)%list.

Definition excluded_paths : list string :=
  ["/login"; "/register"; "/wishlist"; "/cart"; "/checkout"; "/account";
   "/help"; "/policy"; "/about"; "/terms"; "/logout"; "/customer-service"].

(** [TatacliqCrawler.should_crawl] *)
Definition should_crawl (self_domain url : string) : option bool :=
  ok ← Base.should_crawl self_domain url;
  Some (if negb ok then false
        else if excluded excluded_paths url then false
        else true).

(** The [try] block of [TatacliqCrawler.process_url]. *)
Definition process_url_try (c : Crawler) (url : string) (r : fetch_result)
    : Crawler * completion :=
  match r with
  | TransportError => (c, Raised)
  | Response status body =>
      if negb (status =? 200)%Z then (c, Returned)
      else
        match body with
        | None => (c, Raised)
        | Some (html, soup) =>
            let c := add_if_any_pattern tatacliq_product_patterns url c in
            let c := if _check_product_metadata soup then add_product url c else c in
            let c := if _check_product_scripts html then add_product url c else c in
            match extract_links (domain c) soup url with
            | None => (c, Raised)
            | Some links =>
                let '(f, k) := enqueue_links (should_crawl (domain c)) links (frontier c) in
                (set_frontier f c, k)
            end
        end
  end.

(** [TatacliqCrawler.process_url] *)
Definition process_url (c : Crawler) (url : string) (r : fetch_result)
    : Crawler * completion :=
  (fst (process_url_try c url r), Returned).

End Tatacliq.

(** ** crawler/site_specific/nykaa_crawler.py *)

(** A value that is a [str] or [None]. *)
Inductive pyval : Type := PyNone | PyStr (s : string).

Module Nykaa.

Definition nykaa_product_patterns : list Re.pattern :=
  [ Re.pat (Re.lit "/prod/");
    Re.pat (Re.lit "/products/");
    Re.pat (Re.lit "productId=");
    Re.pat (Re.Cat (Re.lit "/p/") (Re.plus Re.digit));
    Re.pat (Re.Cat (Re.lit "/fashion/")
           (Re.Cat (Re.plus (Re.not_chr "/")) (Re.lit "/p/")));
    Re.pat_end (Re.Cat (Re.lit "-p") (Re.plus Re.digit)) ].

(** [NykaaCrawler._is_product_page] *)
Definition _is_product_page (soup : document) (html : string) : bool :=
  let add_buttons := Soup.find_all ["button"; "a"] Tatacliq.says_add_to soup in
  if Py.nonempty add_buttons then true
  else
    let price_elements :=
      Soup.find_all ["div"; "span"]
        (Soup.attr_is "class"
           (fun c => Py.truthy c &&
                     (Py.contains "price" (Py.lower c) || Py.contains "mrp" (Py.lower c))))
        soup in
    if (1 <? List.length price_elements)%nat then true
    else
      let size_selectors :=
        Soup.find_all ["div"; "ul"]
          (Soup.attr_is "class" (fun c => Py.truthy c && Py.contains "size" (Py.lower c)))
          soup in
      if Py.nonempty size_selectors then true
      else
        Py.contains ("itemprop=" ++ dq ++ "product" ++ dq) html ||
        Py.contains (dq ++ "@type" ++ dq ++ ":" ++ dq ++ "Product" ++ dq) html.

(** [NykaaCrawler._normalize_url]; the outer [None] is a [ValueError] from
    [urlparse] or [urljoin]. *)
Definition _normalize_url (base_url href : string) : option pyval :=
  if negb (Py.truthy href) then Some PyNone
  else if Py.startswith "//" href then Some (PyStr ("https:" ++ href))
  else if Py.startswith "/" href then
    parsed_base ← Urllib.urlparse base_url EmptyString;
    Some (PyStr (Urllib.scheme parsed_base ++ "://" ++ Urllib.netloc parsed_base ++ href))
  else if negb (Py.startswith "http" href) then PyStr <$> Urllib.urljoin base_url href
  else Some (PyStr href).

Definition card_terms : list string :=
  ["product-card"; "plp-card"; "product-tile"; "product-box"; "product-item"].

Definition data_attrs : list string := ["data-url"; "data-href"; "data-product-url"].

(** The loop [for attr in [...]: if element.has_attr(attr): ...]. *)
Fixpoint data_links (base_url : string) (element : node) (attrs : list string)
    : option (list pyval) :=
  match attrs with
  | [] => Some []
  | attr :: rest =>
      match Soup.get attr element with
      | Some href =>
          absolute_url ← _normalize_url base_url href;
          links ← data_links base_url element rest;
          Some (absolute_url :: links)
      | None => data_links base_url element rest
      end
  end.

(** The body of the loop over the product elements: the links it appends. *)
Definition element_links (base_url : string) (element : node) : option (list pyval) :=
  first ←
    match Soup.tag_find ["a"] (fun _ => true) element with
    | Some link_tag =>
        let href := default EmptyString (Soup.get "href" link_tag) in
        if Py.truthy href then (fun u => [u]) <$> _normalize_url base_url href
        else Some []
    | None => Some []
    end;
  more ← data_links base_url element data_attrs;
  Some (first ++ more)%list.

Fixpoint elements_links (base_url : string) (elements : list node) : option (list pyval) :=
  match elements with
  | [] => Some []
  | element :: rest =>
      here ← element_links base_url element;
      there ← elements_links base_url rest;
      Some (here ++ there)%list
  end.

(** [NykaaCrawler.extract_links] *)
Definition extract_links (soup : document) (base_url : string) : option (list pyval) :=
  links ← Base.extract_links soup base_url;
  let product_elements :=
    Soup.find_all ["div"; "li"; "article"]
      (Soup.attr_is "class"
         (fun c => Py.truthy c && existsb (fun term => Py.contains term (Py.lower c)) card_terms))
      soup in
  more ← elements_links base_url product_elements;
  Some ((PyStr <$> links) ++ more)%list.

Definition excluded_paths : list string :=
  ["/login"; "/register"; "/wishlist"; "/cart"; "/checkout"; "/account";
   "/help"; "/policy"; "/about"; "/terms"; "/logout"; "/customer-service";
   "/privacy"].

Definition priority_paths : list string :=
  ["/category/"; "/products/"; "/fashion/"; "/prod/"; "/collection/"; "/brands/"].

(** The loop [for path in priority_paths: if path in url: return True],
    followed by the final [return True]. *)
Fixpoint priority_loop (paths : list string) (url : string) : bool :=
  match paths with
  | [] => true
  | path :: rest => if Py.contains path url then true else priority_loop rest url
  end.

(** [NykaaCrawler.should_crawl] *)
Definition should_crawl (self_domain : string) (url : pyval) : option bool :=
  match url with
  | PyNone => Some false
  | PyStr url =>
      if negb (Py.truthy url) then Some false
      else
        ok ← Base.should_crawl self_domain url;
        Some (if negb ok then false
              else if excluded excluded_paths url then false
              else priority_loop priority_paths url)
  end.

(** [NykaaCrawler.should_crawl] with the loop over [priority_paths] deleted. *)
Definition should_crawl_without_priority (self_domain : string) (url : pyval) : option bool :=
  match url with
  | PyNone => Some false
  | PyStr url =>
      if negb (Py.truthy url) then Some false
      else
        ok ← Base.should_crawl self_domain url;
        Some (if negb ok then false
              else if excluded excluded_paths url then false
              else true)
  end.

(** The link loop of [NykaaCrawler.process_url]. A link that passes
    [should_crawl] is a [str]; [frontier.add(None)] would raise. *)
Fixpoint enqueue_links (self_domain : string) (links : list pyval) (f : URLFrontier)
    : URLFrontier * completion :=
  match links with
  | [] => (f, Returned)
  | link :: rest =>
      match should_crawl self_domain link, link with
      | None, _ => (f, Raised)
      | Some true, PyStr url => enqueue_links self_domain rest (Frontier.add url f)
      | Some true, PyNone => (f, Raised)
      | Some false, _ => enqueue_links self_domain rest f
      end
  end.

(** The [try] block of [NykaaCrawler.process_url]. *)
Definition process_url_try (c : Crawler) (url : string) (r : fetch_result)
    : Crawler * completion :=
  match r with
  | TransportError => (c, Raised)
  | Response status body =>
      if negb (status =? 200)%Z then (c, Returned)
      else
        match body with
        | None => (c, Raised)
        | Some (html, soup) =>
            let c := add_if_any_pattern nykaa_product_patterns url c in
            let c := if _is_product_page soup html then add_product url c else c in
            match extract_links soup url with
            | None => (c, Raised)
            | Some links =>
                let '(f, k) := enqueue_links (domain c) links (frontier c) in
                (set_frontier f c, k)
            end
        end
  end.

(** [NykaaCrawler.process_url] *)
Definition process_url (c : Crawler) (url : string) (r : fetch_result)
    : Crawler * completion :=
  (fst (process_url_try c url r), Returned).

End Nykaa.

(** ** main.py: the crawler classes *)

Inductive site : Type := Generic | VirgioSite | TatacliqSite | NykaaSite | WestsideSite.

(** [crawler_map.get(domain, Crawler)] *)
Definition crawler_class (domain : string) : site :=
  if String.eqb domain "https://www.virgio.com/" then VirgioSite
  else if String.eqb domain "https://www.tatacliq.com/" then TatacliqSite
  else if String.eqb domain "https://nykaafashion.com/" then NykaaSite
  else if String.eqb domain "https://www.westside.com/" then WestsideSite
  else Generic.

(** [Crawler.__init__], which the subclasses call first. *)
Definition new_crawler (domain : string) (max_urls concurrency : Z) : Crawler :=
  mkCrawler domain max_urls concurrency Frontier.new ∅ ∅.

(** [self.process_url], by the class of [self]. *)
Definition process_url (k : site) : Crawler → string → fetch_result → Crawler * completion :=
  match k with
  | Generic => Base.process_url
  | VirgioSite => Virgio.process_url
  | TatacliqSite => Tatacliq.process_url
  | NykaaSite => Nykaa.process_url
  | WestsideSite => Westside.process_url
  end.

(** ** The crawl run

    [Crawler.crawl] starts [concurrency] tasks that run [Crawler.worker] on
    one event loop. A task gives way only at an [await]: inside
    [process_url] at [session.get] and [response.text], and at
    [asyncio.sleep]. What lies between two such points runs without
    interruption, so a run is a sequence of steps, each made by one worker:
    the head of the loop up to the call of [process_url]; the rest of
    [process_url] once the answer is there (the two awaits inside are taken
    together, as nothing of the crawler is touched between them); the end of
    the pause. The schedule says which worker moves and what the transport
    answers. *)

Module Engine.

(** Where a worker stands. *)
Inductive pc : Type :=
| AtLoop
| InProcess (url : string)
| Sleeping
| Exited
| Crashed.

(** What a step did. *)
Inductive event : Type :=
| ExitEmpty
| ExitBudget
| Skip (url : string)
| Dispatch (url : string)
| Processed (url : string) (k : completion)
| Wake
| GetRaised.

Record state := mkState {
  crawler : Crawler;
  workers : list pc;
  trace : list event
}.

(** One pass over the head of the [while] loop of [Crawler.worker], down to
    the call of [process_url]. *)
Definition loop_head (c : Crawler) : Crawler * pc * event :=
  if Frontier.is_empty (frontier c) then (c, Exited, ExitEmpty)
  else if (max_urls c <=? Z.of_nat (size (visited_urls c)))%Z then (c, Exited, ExitBudget)
  else
    match Frontier.get (frontier c) with
    | None => (c, Crashed, GetRaised)
    | Some (url, f) =>
        let c := set_frontier f c in
        if decide (url ∈ visited_urls c) then (c, AtLoop, Skip url)
        else (add_visited url c, InProcess url, Dispatch url)
    end.

(** The [try] statement of [Crawler.worker] once the answer [r] is there: a
    call that returns is followed by the pause, an exception is logged and
    the loop goes on. *)
Definition finish (k : site) (c : Crawler) (url : string) (r : fetch_result)
    : Crawler * pc * event :=
  let '(c', how) := process_url k c url r in
  (c', match how with Returned => Sleeping | Raised => AtLoop end, Processed url how).

(** The step of worker [i]. *)
Definition step (k : site) (s : state) (a : nat * fetch_result) : state :=
  let '(i, r) := a in
  match workers s !! i with
  | Some AtLoop =>
      let '(c, p, e) := loop_head (crawler s) in
      mkState c (<[i := p]> (workers s)) (trace s ++ [e])
  | Some (InProcess url) =>
      let '(c, p, e) := finish k (crawler s) url r in
      mkState c (<[i := p]> (workers s)) (trace s ++ [e])
  | Some Sleeping =>
      mkState (crawler s) (<[i := AtLoop]> (workers s)) (trace s ++ [Wake])
  | Some Exited | Some Crashed | None => s
  end.

(** [Crawler.crawl] up to the start of the workers. *)
Definition start (domain : string) (max_urls concurrency : Z) : state :=
  let c := new_crawler domain max_urls concurrency in
  mkState (set_frontier (Frontier.add domain (frontier c)) c)
          (replicate (Z.to_nat concurrency) AtLoop) [].

(** The run under a schedule. *)
Definition run (k : site) (s : state) (schedule : list (nat * fetch_result)) : state :=
  foldl (step k) s schedule.

(** The URLs with which [process_url] was called, in order. *)
Definition dispatched (t : list event) : list string :=
  omap (fun e => match e with Dispatch url => Some url | _ => None end) t.

(** The URLs at which the already-visited branch was taken. *)
Definition skipped (t : list event) : list string :=
  omap (fun e => match e with Skip url => Some url | _ => None end) t.

(** What holds at every point of a run. *)
Record inv (s : state) : Prop := mkInv {
  inv_wf : Frontier.wf (frontier (crawler s));
  inv_seen : ∀ u, u ∈ visited_urls (crawler s) → u ∈ seen_urls (frontier (crawler s));
  inv_fresh : ∀ u, u ∈ queue (frontier (crawler s)) → u ∉ visited_urls (crawler s);
  inv_disp : ∀ u, u ∈ dispatched (trace s) ↔ u ∈ visited_urls (crawler s);
  inv_nodup : NoDup (dispatched (trace s));
  inv_count : List.length (dispatched (trace s)) = size (visited_urls (crawler s));
  inv_skip : skipped (trace s) = [];
  inv_budget : (0 ≤ max_urls (crawler s))%Z →
               (Z.of_nat (size (visited_urls (crawler s))) ≤ max_urls (crawler s))%Z
}.

End Engine.

(** What [process_url] may change of a crawler: it adds product URLs and
    calls [frontier.add]. *)
Record extends (c c' : Crawler) : Prop := mkExtends {
  ext_domain : domain c' = domain c;
  ext_max : max_urls c' = max_urls c;
  ext_conc : concurrency c' = concurrency c;
  ext_visited : visited_urls c' = visited_urls c;
  ext_products : product_urls c ⊆ product_urls c';
  ext_frontier : ∃ urls, frontier c' = Frontier.add_all urls (frontier c)
}.

(** ** Notions used in the statements *)

(** The answers that carry no content: the transport raised, the status is
    not 200, or reading or parsing the body raised. *)
Definition no_content (r : fetch_result) : bool :=
  match r with
  | TransportError => true
  | Response status body =>
      negb (status =? 200)%Z || match body with None => true | Some _ => false end
  end.

(** The crawler once [Crawler.process_url] has classified [url]: the URL is
    recorded when [is_product_page] returned true. *)
Definition classified (is_product : bool) (url : string) (c : Crawler) : Crawler :=
  if is_product then add_product url c else c.

(** The links that [should_crawl] admits. *)
Definition admitted (should : string → option bool) (links : list string) : list string :=
  filter (λ link, should link = Some true) links.

(** The crawler once the loop over the links has passed [links] to
    [should_crawl] and the admitted ones to [frontier.add]. *)
Definition enqueued (should : string → option bool) (links : list string) (c : Crawler)
    : Crawler :=
  set_frontier (Frontier.add_all (admitted should links) (frontier c)) c.

(** The text [application/ld+json] as the [type] of a [script] tag. *)
Definition is_ld_json : node → bool :=
  Soup.attr_is "type" (String.eqb "application/ld+json").

(** The declaration ["@type":"Product"]. *)
Definition product_type_decl : string :=
  dq ++ "@type" ++ dq ++ ":" ++ dq ++ "Product" ++ dq.

(** ** Sample pages and crawlers *)

(** A URL that no pattern of the generic classifier matches. *)
Definition plain_url : string := "https://shop.example/about".

(** A JSON-LD script block with the given text. *)
Definition ld_script (text : string) : node :=
  Tag "script" {[ "type" := "application/ld+json" ]} [Text text].

Definition organization_ld : string :=
  "{" ++ dq ++ "@type" ++ dq ++ ":" ++ dq ++ "Organization" ++ dq ++ "}".
Definition product_ld : string := "{" ++ product_type_decl ++ "}".

(** A document with one JSON-LD block that declares a product. *)
Definition one_block_soup : document :=
  [Tag "html" ∅ [Tag "head" ∅ [ld_script product_ld]; Tag "body" ∅ []]].
Definition one_block_html : string :=
  "<html><head><script type=" ++ dq ++ "application/ld+json" ++ dq ++ ">"
  ++ product_ld ++ "</script></head><body></body></html>".

(** A document with two JSON-LD blocks, the product in the second. *)
Definition two_block_soup : document :=
  [Tag "html" ∅
     [Tag "head" ∅ [ld_script organization_ld; ld_script product_ld];
      Tag "body" ∅ []]].
Definition two_block_html : string :=
  "<html><head><script type=" ++ dq ++ "application/ld+json" ++ dq ++ ">"
  ++ organization_ld ++ "</script><script type=" ++ dq ++ "application/ld+json" ++ dq ++ ">"
  ++ product_ld ++ "</script></head><body></body></html>".

(** A page with nothing in it. *)
Definition empty_html : string := "<html><body></body></html>".
Definition empty_soup : document := [Tag "html" ∅ [Tag "body" ∅ []]].

(** A generic crawler as [main] creates it. *)
Definition shop_crawler : Crawler := new_crawler "https://shop.example/" 1000 5.

(** A page whose only anchor has an address that [urljoin] rejects. *)
Definition bad_link_html : string :=
  "<html><body><a href=" ++ dq ++ "http://[" ++ dq ++ ">x</a></body></html>".
Definition bad_link_soup : document :=
  [Tag "html" ∅ [Tag "body" ∅ [Tag "a" {[ "href" := "http://[" ]} [Text "x"]]]].

(** A Westside crawler, and a product grid whose second tile carries an
    address that [urlparse] rejects. *)
Definition westside_crawler : Crawler := new_crawler "https://www.westside.com/" 1000 5.
Definition westside_grid_html : string :=
  "<div class=" ++ dq ++ "product-item" ++ dq ++ "><a href=" ++ dq ++ "/a" ++ dq
  ++ ">A</a></div><div class=" ++ dq ++ "product-tile" ++ dq ++ "><a href=" ++ dq ++ "#" ++ dq
  ++ " data-product-url=" ++ dq ++ "//[" ++ dq ++ ">B</a></div>".
Definition westside_grid_soup : document :=
  [Tag "div" {[ "class" := "product-item" ]} [Tag "a" {[ "href" := "/a" ]} [Text "A"]];
   Tag "div" {[ "class" := "product-tile" ]}
       [Tag "a" {[ "href" := "#"; "data-product-url" := "//[" ]} [Text "B"]]].

(** The pages of the scenario of the design document, and its schedule for
    one worker. *)
Definition home_html : string :=
  "<html><body><a href=" ++ dq ++ "/p/123" ++ dq
  ++ ">Shoes</a><button>Add to Cart</button></body></html>".
Definition home_soup : document :=
  [Tag "html" ∅
     [Tag "body" ∅ [Tag "a" {[ "href" := "/p/123" ]} [Text "Shoes"];
                    Tag "button" ∅ [Text "Add to Cart"]]]].
Definition shoes_html : string := "<html><body><h1>Shoes</h1></body></html>".
Definition shoes_soup : document :=
  [Tag "html" ∅ [Tag "body" ∅ [Tag "h1" ∅ [Text "Shoes"]]]].

Definition scenario : list (nat * fetch_result) :=
  [(0%nat, TransportError);
   (0%nat, Response 200 (Some (home_html, home_soup)));
   (0%nat, TransportError);
   (0%nat, TransportError);
   (0%nat, Response 200 (Some (shoes_html, shoes_soup)));
   (0%nat, TransportError);
   (0%nat, TransportError)].

(** ** Further notions: the frontier over its lifetime *)

(** A call on a frontier. *)
Inductive frontier_op : Type :=
| OpAdd (url : string)
| OpGet.

(** A sequence of calls, with the URLs that the [get] calls returned, oldest
    first. A [get] on an empty frontier raises and leaves the deque as it
    was; the sequence goes on after it. *)
Fixpoint apply_ops (ops : list frontier_op) (f : URLFrontier) (returned : list string)
    : URLFrontier * list string :=
  match ops with
  | [] => (f, returned)
  | OpAdd url :: rest => apply_ops rest (Frontier.add url f) returned
  | OpGet :: rest =>
      match Frontier.get f with
      | None => apply_ops rest f returned
      | Some (url, f') => apply_ops rest f' (returned ++ [url])
      end
  end.

(** The first occurrence of every element, in order. *)
Fixpoint first_occurrences (l : list string) : list string :=
  match l with
  | [] => []
  | x :: l' => x :: filter (λ y, y ≠ x) (first_occurrences l')
  end.

(** ** Further notions: what a pattern matches *)

(** The strings that a regular expression denotes. *)
Inductive re_matches : Re.re → string → Prop :=
| M_eps : re_matches Re.Eps EmptyString
| M_sym p a : p a = true → re_matches (Re.Sym p) (String a EmptyString)
| M_cat r1 r2 s1 s2 :
    re_matches r1 s1 → re_matches r2 s2 → re_matches (Re.Cat r1 r2) (s1 ++ s2)
| M_alt_l r1 r2 s : re_matches r1 s → re_matches (Re.Alt r1 r2) s
| M_alt_r r1 r2 s : re_matches r2 s → re_matches (Re.Alt r1 r2) s
| M_star_nil r : re_matches (Re.Star r) EmptyString
| M_star_app r s1 s2 :
    re_matches r s1 → re_matches (Re.Star r) s2 → re_matches (Re.Star r) (s1 ++ s2).

(** ** Further notions: the signals of the classifier *)

(** The path fragments behind [product_url_patterns]. *)
Definition product_path_fragments : list string :=
  ["/product/"; "/p/"; "/item/"; "/products/"; "/pd/"; "/buy/"; "/shop/"].

(** How many of the indicator phrases occur in the lower-cased markup. *)
Definition indicator_hits (html : string) : nat :=
  List.length (List.filter (fun indicator => Py.contains indicator (Py.lower html))
                           ProductIdentifier.product_indicators).

(** The elements that [_check_page_content] looks for. *)
Definition price_elements (soup : document) : list node :=
  Soup.find_all ["span"; "div"; "p"]
                (Soup.attr_is "class" (Re.search ProductIdentifier.price_class)) soup.
Definition qty_elements (soup : document) : list node :=
  Soup.find_all ["select"; "input"; "div"]
                (Soup.attr_is "class" (Re.search ProductIdentifier.qty_class)) soup.

(** A page whose only product marker is a price [meta] tag. *)
Definition price_meta_soup : document :=
  [Tag "html" ∅
     [Tag "head" ∅ [Tag "meta" {[ "property" := "og:price:amount"; "content" := "499" ]} []];
      Tag "body" ∅ []]].
Definition price_meta_html : string :=
  "<html><head><meta property=" ++ dq ++ "og:price:amount" ++ dq ++ " content=" ++ dq
  ++ "499" ++ dq ++ "></head><body></body></html>".

(** ** Further notions: admission by class *)

(** [self.should_crawl(link)] on a [str], by the class of [self]. *)
Definition should_crawl_of (k : site) (self_domain link : string) : option bool :=
  match k with
  | Generic | VirgioSite => Base.should_crawl self_domain link
  | TatacliqSite => Tatacliq.should_crawl self_domain link
  | NykaaSite => Nykaa.should_crawl self_domain (PyStr link)
  | WestsideSite => Westside.should_crawl self_domain link
  end.

(** What the generic rule requires of a link it admits. *)
Definition on_site (self_domain link : string) : Prop :=
  ∃ parsed_url parsed_domain,
    Urllib.urlparse link EmptyString = Some parsed_url ∧
    Urllib.urlparse self_domain EmptyString = Some parsed_domain ∧
    Urllib.netloc parsed_url = Urllib.netloc parsed_domain ∧
    Urllib.fragment parsed_url = EmptyString ∧
    ∀ ext, ext ∈ Base.skipped_extensions → Py.endswith ext link = false.

(** What [process_url] does to the frontier: it adds links that the
    [should_crawl] of the class admitted. *)
Definition adds_admitted (k : site) (c c' : Crawler) : Prop :=
  ∃ urls, frontier c' = Frontier.add_all urls (frontier c) ∧
          ∀ u, u ∈ urls → should_crawl_of k (domain c) u = Some true.

(** ** Further notions: the run to its end *)

(** A worker that still has a step to make. *)
Definition live (w : Engine.pc) : bool :=
  match w with
  | Engine.AtLoop | Engine.InProcess _ | Engine.Sleeping => true
  | Engine.Exited | Engine.Crashed => false
  end.

(** How many steps a worker is from the head of its loop, plus one. *)
Definition weight (w : Engine.pc) : nat :=
  match w with
  | Engine.InProcess _ => 3
  | Engine.Sleeping => 2
  | Engine.AtLoop => 1
  | Engine.Exited | Engine.Crashed => 0
  end.

(** A bound on the steps that are left: three for every URL still in the
    budget, and the way of every worker back to the head of its loop. *)
Definition potential (s : Engine.state) : nat :=
  3 * (Z.to_nat (max_urls (Engine.crawler s)) - size (visited_urls (Engine.crawler s)))
  + sum_list (weight <$> Engine.workers s).

(** The first worker that can move. *)
Fixpoint first_live (ws : list Engine.pc) : option nat :=
  match ws with
  | [] => None
  | w :: ws' => if live w then Some 0%nat else S <$> first_live ws'
  end.

(** The run in which the first worker that can move always does, with the
    transport given as a function of the URL; it ends when no worker can
    move, which is when [asyncio.gather] returns. *)
Fixpoint drive (k : site) (fetch : string → fetch_result) (fuel : nat) (s : Engine.state)
    : Engine.state :=
  match fuel with
  | O => s
  | S fuel' =>
      match first_live (Engine.workers s) with
      | None => s
      | Some i =>
          let r := match Engine.workers s !! i with
                   | Some (Engine.InProcess url) => fetch url
                   | _ => TransportError
                   end in
          drive k fetch fuel' (Engine.step k s (i, r))
      end
  end.

(** [Crawler.crawl]: the product URLs once every worker has left ([None]
    when the fuel does not reach that far). The order in which
    [list(self.product_urls)] lists them is not modelled. *)
Definition crawl (k : site) (domain : string) (max_urls concurrency : Z)
    (fetch : string → fetch_result) (fuel : nat) : option (gset string) :=
  let s := drive k fetch fuel (Engine.start domain max_urls concurrency) in
  if forallb (fun w => negb (live w)) (Engine.workers s)
  then Some (product_urls (Engine.crawler s)) else None.

(** The transport of the scenario of the design document, as a function. *)
Definition scenario_fetch (url : string) : fetch_result :=
  if String.eqb url "https://shop.example" then Response 200 (Some (home_html, home_soup))
  else if String.eqb url "https://shop.example/p/123"
  then Response 200 (Some (shoes_html, shoes_soup))
  else Response 404 None.

(** ** Further notions: what a class records *)

(** The body and document of an answer with status 200 that could be read
    and parsed. *)
Definition page_of (r : fetch_result) : option (string * document) :=
  match r with
  | Response status (Some page) => if (status =? 200)%Z then Some page else None
  | _ => None
  end.

(** The generic classifier returns [True] on the page of the answer. *)
Definition generic_positive (url : string) (r : fetch_result) : bool :=
  match page_of r with
  | Some (html, soup) =>
      match ProductIdentifier.is_product_page url html soup with
      | Some b => b
      | None => false
      end
  | None => false
  end.

(** The signals by which each class records the URL it processes. *)
Definition records (k : site) (url : string) (r : fetch_result) : bool :=
  match k with
  | Generic => generic_positive url r
  | VirgioSite =>
      generic_positive url r ||
      (Re.search Virgio.listing url && Re.search Virgio.product_suffix url)
  | WestsideSite =>
      generic_positive url r ||
      existsb (fun p => Re.search p url) Westside.westside_product_patterns
  | TatacliqSite =>
      match page_of r with
      | Some (html, soup) =>
          existsb (fun p => Re.search p url) Tatacliq.tatacliq_product_patterns ||
          Tatacliq._check_product_metadata soup || Tatacliq._check_product_scripts html
      | None => false
      end
  | NykaaSite =>
      match page_of r with
      | Some (html, soup) =>
          existsb (fun p => Re.search p url) Nykaa.nykaa_product_patterns ||
          Nykaa._is_product_page soup html
      | None => false
      end
  end.

(** ** Frontier lemmas *)

Lemma rstrip_idem c s : Py.rstrip c (Py.rstrip c s) = Py.rstrip c s.
Proof.
  induction s as [|a s IH]; simpl; [done|].
  destruct (Py.rstrip c s) as [|b r] eqn:E.
  - destruct (Ascii.eqb a c) eqn:Ea; simpl; [done|]. by rewrite Ea.
  - simpl in *. by rewrite IH.
Qed.

Lemma normalize_idem url :
  Frontier.normalize (Frontier.normalize url) = Frontier.normalize url.
Proof. apply rstrip_idem. Qed.

Lemma wf_new : Frontier.wf Frontier.new.
Proof. split; simpl; [constructor | intros u Hu; inversion Hu ..]. Qed.

Lemma wf_add url f : Frontier.wf f → Frontier.wf (Frontier.add url f).
Proof.
  intros [Hnd Hseen Hnorm]. unfold Frontier.add.
  destruct (decide _) as [Hin|Hnin]; [by split|].
  split; simpl.
  - apply NoDup_app. split_and!; [done | | apply NoDup_singleton].
    intros u Hu ->%list_elem_of_singleton. by apply Hnin, Hseen.
  - intros u [Hu| ->%list_elem_of_singleton]%elem_of_app; set_solver.
  - intros u [Hu| ->%list_elem_of_singleton]%elem_of_app;
      [by apply Hnorm | apply normalize_idem].
Qed.

Lemma wf_get f url f' :
  Frontier.wf f → Frontier.get f = Some (url, f') → Frontier.wf f'.
Proof.
  intros [Hnd Hseen Hnorm]. unfold Frontier.get.
  destruct (queue f) as [|u q] eqn:E; [done|]. intros [= <- <-].
  apply NoDup_cons in Hnd as [_ Hnd].
  split; simpl; [done | |]; intros v Hv; [apply Hseen | apply Hnorm]; set_solver.
Qed.

Lemma wf_add_all urls f : Frontier.wf f → Frontier.wf (Frontier.add_all urls f).
Proof.
  revert f. induction urls as [|u urls IH]; intros f Hf; simpl; [done|].
  apply IH. by apply wf_add.
Qed.

Lemma drain_queue f : Frontier.drain f = queue f.
Proof.
  unfold Frontier.drain, Frontier.size. destruct f as [q s]. simpl.
  induction q as [|u q IH]; simpl; [done|]. by rewrite IH.
Qed.

Lemma seen_add url f :
  seen_urls (Frontier.add url f) = seen_urls f ∪ {[Frontier.normalize url]}.
Proof.
  unfold Frontier.add. destruct (decide _); simpl; [set_solver | done].
Qed.

Lemma seen_add_all urls f :
  ∀ u, u ∈ seen_urls (Frontier.add_all urls f) ↔
       u ∈ seen_urls f ∨ u ∈ Frontier.normalize <$> urls.
Proof.
  revert f. induction urls as [|x urls IH]; intros f u; simpl.
  - split; [by left | intros [?|H]; [done | inversion H]].
  - rewrite IH, seen_add. set_solver.
Qed.

Lemma queue_add_all_fresh urls f :
  NoDup (Frontier.normalize <$> urls) →
  (∀ u, u ∈ Frontier.normalize <$> urls → u ∉ seen_urls f) →
  queue (Frontier.add_all urls f) = (queue f ++ (Frontier.normalize <$> urls))%list.
Proof.
  revert f. induction urls as [|x urls IH]; intros f Hnd Hfresh; simpl.
  - by rewrite app_nil_r.
  - apply NoDup_cons in Hnd as [Hx Hnd].
    assert (Hadd : Frontier.add x f =
      mkFrontier (queue f ++ [Frontier.normalize x])
                 (seen_urls f ∪ {[Frontier.normalize x]})).
    { unfold Frontier.add. destruct (decide _) as [Hin|]; [|done].
      exfalso. apply (Hfresh (Frontier.normalize x)); [|done]. set_solver. }
    rewrite IH; [| done |].
    + rewrite Hadd. simpl. by rewrite <- app_assoc.
    + intros u Hu. rewrite Hadd. simpl.
      intros [Hin| ->%elem_of_singleton]%elem_of_union; [|done].
      apply (Hfresh u); [|done]. set_solver.
Qed.

(** ** Frontier properties *)

(** C2: whatever sequence of [add] calls is made on a fresh frontier, no two
    queue entries have the same normalised URL; adding ["https://x/a/"] and
    then ["https://x/a"] leaves the single entry ["https://x/a"]. *)
Theorem frontier_add_never_duplicates :
  (∀ urls : list string,
     NoDup (Frontier.normalize <$> queue (Frontier.add_all urls Frontier.new))) ∧
  queue (Frontier.add "https://x/a" (Frontier.add "https://x/a/" Frontier.new))
    = ["https://x/a"].
Proof.
  split; [|by vm_compute].
  intros urls.
  destruct (wf_add_all urls _ wf_new) as [Hnd _ Hnorm].
  replace (Frontier.normalize <$> queue (Frontier.add_all urls Frontier.new))
    with (queue (Frontier.add_all urls Frontier.new)); [done|].
  induction (queue _) as [|u q IH]; simpl; [done|].
  rewrite Hnorm by set_solver. f_equal. apply IH.
  - by apply NoDup_cons in Hnd as [_ ?].
  - intros v Hv. apply Hnorm. set_solver.
Qed.

(** C7: after [add] calls with pairwise distinct normalised URLs on a fresh
    frontier, successive [get] calls return the entries in the order of the
    [add] calls. *)
Theorem frontier_fifo (urls : list string) :
  NoDup (Frontier.normalize <$> urls) →
  Frontier.drain (Frontier.add_all urls Frontier.new) = Frontier.normalize <$> urls.
Proof.
  intros Hnd. rewrite drain_queue, queue_add_all_fresh; [done..|].
  intros u _. simpl. set_solver.
Qed.

Lemma frontier_fifo_witness :
  NoDup (Frontier.normalize <$> ["https://x/b/"; "https://x/a"; "https://x/c//"]) ∧
  Frontier.drain
    (Frontier.add_all ["https://x/b/"; "https://x/a"; "https://x/c//"] Frontier.new)
  = ["https://x/b"; "https://x/a"; "https://x/c"].
Proof.
  split.
  - vm_compute. repeat constructor; set_solver.
  - apply (frontier_fifo ["https://x/b/"; "https://x/a"; "https://x/c//"]).
    vm_compute. repeat constructor; set_solver.
Defined.

(** ** What the [process_url] methods leave untouched *)

Lemma extends_refl c : extends c c.
Proof. split; try done. by exists []. Qed.

Lemma extends_trans c1 c2 c3 : extends c1 c2 → extends c2 c3 → extends c1 c3.
Proof.
  intros [Hd1 Hm1 Hc1 Hv1 Hp1 [us1 Hf1]] [Hd2 Hm2 Hc2 Hv2 Hp2 [us2 Hf2]].
  split; try congruence; [set_solver|].
  exists (us1 ++ us2)%list. unfold Frontier.add_all in *.
  by rewrite foldl_app, <- Hf1.
Qed.

Lemma extends_add_product url c : extends c (add_product url c).
Proof. split; simpl; try done; [set_solver | by exists []]. Qed.

Lemma extends_if_product (b : bool) url c :
  extends c (if b then add_product url c else c).
Proof. destruct b; [apply extends_add_product | apply extends_refl]. Qed.

Lemma extends_add_if_any_pattern ps url c : extends c (add_if_any_pattern ps url c).
Proof. unfold add_if_any_pattern. apply extends_if_product. Qed.

Lemma extends_set_frontier c urls :
  extends c (set_frontier (Frontier.add_all urls (frontier c)) c).
Proof. split; simpl; try done. by exists urls. Qed.

Lemma enqueue_links_adds should links f :
  ∃ urls, fst (enqueue_links should links f) = Frontier.add_all urls f.
Proof.
  revert f. induction links as [|l links IH]; intros f; simpl.
  - by exists [].
  - destruct (should l) as [[|]|]; [| apply IH | by exists []].
    destruct (IH (Frontier.add l f)) as [urls Hurls].
    exists (l :: urls). by rewrite Hurls.
Qed.

Lemma nykaa_enqueue_links_adds d links f :
  ∃ urls, fst (Nykaa.enqueue_links d links f) = Frontier.add_all urls f.
Proof.
  revert f. induction links as [|l links IH]; intros f; simpl.
  - by exists [].
  - destruct (Nykaa.should_crawl d l) as [[|]|]; [| apply IH | by exists []].
    destruct l as [|u]; [by exists []|].
    destruct (IH (Frontier.add u f)) as [urls Hurls].
    exists (u :: urls). by rewrite Hurls.
Qed.

Lemma extends_base_try extract should c url r :
  extends c (fst (Base.process_url_try extract should c url r)).
Proof.
  unfold Base.process_url_try.
  destruct r as [|status [[html soup]|]]; simpl; [apply extends_refl | |
    destruct (negb _); apply extends_refl].
  destruct (negb _); simpl; [apply extends_refl|].
  destruct (ProductIdentifier.is_product_page url html soup) as [b|];
    simpl; [|apply extends_refl].
  eapply extends_trans; [apply (extends_if_product b url)|].
  set (c1 := if b then add_product url c else c).
  destruct (extract soup url) as [links|]; simpl; [|apply extends_refl].
  destruct (enqueue_links_adds should links (frontier c1)) as [urls Hurls].
  destruct (enqueue_links should links (frontier c1)) as [f how]. simpl in *.
  subst f. apply extends_set_frontier.
Qed.

Lemma extends_tatacliq_try c url r :
  extends c (fst (Tatacliq.process_url_try c url r)).
Proof.
  unfold Tatacliq.process_url_try.
  destruct r as [|status [[html soup]|]]; simpl; [apply extends_refl | |
    destruct (negb _); apply extends_refl].
  destruct (negb _); simpl; [apply extends_refl|].
  set (c1 := add_if_any_pattern _ url c).
  set (c2 := if Tatacliq._check_product_metadata soup then add_product url c1 else c1).
  set (c3 := if Tatacliq._check_product_scripts html then add_product url c2 else c2).
  assert (H3 : extends c c3).
  { eapply extends_trans; [apply extends_add_if_any_pattern|].
    eapply extends_trans; apply extends_if_product. }
  destruct (Tatacliq.extract_links _ soup url) as [links|]; simpl; [|done].
  destruct (enqueue_links_adds (Tatacliq.should_crawl (domain c3)) links (frontier c3))
    as [urls Hurls].
  destruct (enqueue_links _ links (frontier c3)) as [f how]. simpl in *.
  subst f. eapply extends_trans; [exact H3 | apply extends_set_frontier].
Qed.

Lemma extends_nykaa_try c url r :
  extends c (fst (Nykaa.process_url_try c url r)).
Proof.
  unfold Nykaa.process_url_try.
  destruct r as [|status [[html soup]|]]; simpl; [apply extends_refl | |
    destruct (negb _); apply extends_refl].
  destruct (negb _); simpl; [apply extends_refl|].
  set (c1 := add_if_any_pattern _ url c).
  set (c2 := if Nykaa._is_product_page soup html then add_product url c1 else c1).
  assert (H2 : extends c c2).
  { eapply extends_trans; [apply extends_add_if_any_pattern | apply extends_if_product]. }
  destruct (Nykaa.extract_links soup url) as [links|]; simpl; [|done].
  destruct (nykaa_enqueue_links_adds (domain c2) links (frontier c2)) as [urls Hurls].
  destruct (Nykaa.enqueue_links _ links (frontier c2)) as [f how]. simpl in *.
  subst f. eapply extends_trans; [exact H2 | apply extends_set_frontier].
Qed.

Lemma extends_process_url k c url r : extends c (fst (process_url k c url r)).
Proof.
  destruct k; simpl.
  - apply extends_base_try.
  - unfold Virgio.process_url. simpl.
    eapply extends_trans; [apply extends_base_try | apply extends_if_product].
  - apply extends_tatacliq_try.
  - apply extends_nykaa_try.
  - unfold Westside.process_url. simpl.
    eapply extends_trans; [apply extends_base_try | apply extends_add_if_any_pattern].
Qed.

(** Every [process_url] ends by returning. *)
Lemma process_url_returns k c url r : snd (process_url k c url r) = Returned.
Proof. by destruct k. Qed.

(** ** Invariants of the run *)

Lemma queue_add_all_origin urls f u :
  u ∈ queue (Frontier.add_all urls f) → u ∈ queue f ∨ u ∉ seen_urls f.
Proof.
  revert f. induction urls as [|x urls IH]; intros f Hu; simpl in *; [by left|].
  destruct (IH _ Hu) as [Hq|Hs].
  - unfold Frontier.add in Hq. destruct (decide _) as [|Hnew]; [by left|].
    simpl in Hq. apply elem_of_app in Hq as [?| ->%list_elem_of_singleton];
      [by left | by right].
  - right. rewrite seen_add in Hs. set_solver.
Qed.

Lemma dispatched_snoc t e :
  Engine.dispatched (t ++ [e]) =
  (Engine.dispatched t ++ match e with Engine.Dispatch u => [u] | _ => [] end)%list.
Proof. unfold Engine.dispatched. rewrite omap_app. by destruct e. Qed.

Lemma skipped_snoc t e :
  Engine.skipped (t ++ [e]) =
  (Engine.skipped t ++ match e with Engine.Skip u => [u] | _ => [] end)%list.
Proof. unfold Engine.skipped. rewrite omap_app. by destruct e. Qed.

Lemma inv_start d m n : Engine.inv (Engine.start d m n).
Proof.
  split; simpl; try done.
  - apply wf_add, wf_new.
  - intros u. split; [intros H; inversion H | set_solver].
  - constructor.
Qed.

(** A step that leaves the crawler alone and records neither a dispatch nor
    a skip. *)
Lemma inv_quiet c ws ws' t e :
  Engine.inv (Engine.mkState c ws t) →
  match e with Engine.Dispatch _ | Engine.Skip _ => False | _ => True end →
  Engine.inv (Engine.mkState c ws' (t ++ [e])).
Proof.
  intros [Hwf Hseen Hfresh Hdisp Hnd Hcnt Hskip Hbud] He. simpl in *.
  assert (Engine.dispatched (t ++ [e]) = Engine.dispatched t) as Hd.
  { rewrite dispatched_snoc. destruct e; try done; by rewrite app_nil_r. }
  assert (Engine.skipped (t ++ [e]) = Engine.skipped t) as Hs.
  { rewrite skipped_snoc. destruct e; try done; by rewrite app_nil_r. }
  split; simpl; rewrite ?Hd, ?Hs; done.
Qed.

Lemma inv_extends c c' ws ws' t e :
  Engine.inv (Engine.mkState c ws t) → extends c c' →
  match e with Engine.Dispatch _ | Engine.Skip _ => False | _ => True end →
  Engine.inv (Engine.mkState c' ws' (t ++ [e])).
Proof.
  intros Hinv [Hd Hm Hc Hv Hp [urls Hf]] He.
  apply (inv_quiet c' ws); [|done].
  destruct Hinv as [Hwf Hseen Hfresh Hdisp Hnd Hcnt Hskip Hbud]. simpl in *.
  split; simpl; rewrite ?Hv, ?Hm, ?Hf; try done.
  - by apply wf_add_all.
  - intros u Hu. apply seen_add_all. left. by apply Hseen.
  - intros u Hu. destruct (queue_add_all_origin _ _ _ Hu) as [Hq|Hs];
      [by apply Hfresh | intros Hvis; by apply Hs, Hseen].
Qed.

Lemma inv_loop_head c ws ws' t :
  Engine.inv (Engine.mkState c ws t) →
  let '(c', _, e) := Engine.loop_head c in
  Engine.inv (Engine.mkState c' ws' (t ++ [e])) ∧
  match e with Engine.Skip _ | Engine.GetRaised => False | _ => True end.
Proof.
  intros Hinv. unfold Engine.loop_head.
  destruct (Frontier.is_empty (frontier c)) eqn:Hempty.
  { split; [by apply (inv_quiet c ws) | done]. }
  destruct (max_urls c <=? _)%Z eqn:Hmax.
  { split; [by apply (inv_quiet c ws) | done]. }
  destruct (Frontier.get (frontier c)) as [[url f]|] eqn:Hget.
  2:{ unfold Frontier.get, Frontier.is_empty in *.
      by destruct (queue (frontier c)). }
  destruct Hinv as [Hwf Hseen Hfresh Hdisp Hnd Hcnt Hskip Hbud]. simpl in *.
  assert (Hq : queue (frontier c) = url :: queue f ∧ seen_urls f = seen_urls (frontier c)).
  { unfold Frontier.get in Hget. destruct (queue (frontier c)); [done|].
    by injection Hget as <- <-. }
  destruct Hq as [Hq Hs].
  assert (Hnew : url ∉ visited_urls c) by (apply Hfresh; rewrite Hq; set_solver).
  destruct (decide (url ∈ visited_urls c)) as [|_]; [done|].
  split; [|done].
  pose proof (wf_get _ _ _ Hwf Hget) as Hwf'.
  destruct Hwf as [Hqnd Hqseen _]. rewrite Hq in Hqnd, Hqseen.
  apply NoDup_cons in Hqnd as [Hhead _].
  split; simpl; rewrite ?dispatched_snoc, ?skipped_snoc, ?app_nil_r; try done.
  - intros u [Hu| ->%elem_of_singleton]%elem_of_union; rewrite Hs;
      [by apply Hseen | apply Hqseen; set_solver].
  - intros u Hu [Hv| ->%elem_of_singleton]%elem_of_union; [|done].
    apply (Hfresh u); [rewrite Hq; set_solver | done].
  - intros u. rewrite elem_of_app, list_elem_of_singleton, elem_of_union,
      elem_of_singleton. by rewrite Hdisp.
  - apply NoDup_app. split_and!; [done | | apply NoDup_singleton].
    intros u Hu ->%list_elem_of_singleton. by apply Hnew, Hdisp.
  - rewrite length_app, Hcnt, size_union, size_singleton by set_solver. done.
  - intros Hpos. rewrite size_union, size_singleton by set_solver.
    apply Z.leb_gt in Hmax. lia.
Qed.

Lemma inv_step k s a : Engine.inv s → Engine.inv (Engine.step k s a).
Proof.
  intros Hinv. destruct s as [c ws t], a as [i r]. unfold Engine.step. simpl.
  destruct (ws !! i) as [[|url| | |]|]; try done.
  - pose proof (inv_loop_head c ws (<[i:=(Engine.loop_head c).1.2]> ws) t Hinv) as H.
    destruct (Engine.loop_head c) as [[c' p] e]. by destruct H.
  - unfold Engine.finish.
    pose proof (extends_process_url k c url r) as Hext.
    destruct (process_url k c url r) as [c' how]. simpl in Hext.
    by apply (inv_extends c c' ws).
  - by apply (inv_quiet c ws).
Qed.

Lemma inv_run k s schedule : Engine.inv s → Engine.inv (Engine.run k s schedule).
Proof.
  revert s. induction schedule as [|a schedule IH]; intros s Hinv; simpl; [done|].
  apply IH. by apply inv_step.
Qed.

Lemma step_max_urls k s a :
  max_urls (Engine.crawler (Engine.step k s a)) = max_urls (Engine.crawler s).
Proof.
  destruct s as [c ws t], a as [i r]. unfold Engine.step. simpl.
  destruct (ws !! i) as [[|url| | |]|]; try done.
  - unfold Engine.loop_head.
    destruct (Frontier.is_empty _); [done|]. destruct (_ <=? _)%Z; [done|].
    destruct (Frontier.get _) as [[u f]|]; [|done]. simpl.
    by destruct (decide _).
  - unfold Engine.finish. pose proof (extends_process_url k c url r) as [_ Hx _ _ _ _].
    by destruct (process_url k c url r).
Qed.

Lemma run_max_urls k s schedule :
  max_urls (Engine.crawler (Engine.run k s schedule)) = max_urls (Engine.crawler s).
Proof.
  revert s. induction schedule as [|a schedule IH]; intros s; simpl; [done|].
  fold (Engine.run k (Engine.step k s a) schedule). by rewrite IH, step_max_urls.
Qed.

(** ** Properties of the run *)

(** C3: in every run, whatever the class of the crawler, the schedule of the
    workers and the answers of the transport, [process_url] is called with
    any one URL at most once. *)
Theorem each_url_dispatched_at_most_once
    (k : site) (d : string) (m n : Z) (schedule : list (nat * fetch_result)) (url : string) :
  (count_occ string_dec
     (Engine.dispatched (Engine.trace (Engine.run k (Engine.start d m n) schedule))) url
   ≤ 1)%nat.
Proof.
  apply NoDup_count_occ. apply NoDup_ListNoDup.
  apply inv_run, inv_start.
Qed.

(** C10: in every run the already-visited branch of the worker is never
    taken: each URL that [frontier.get] returns is absent from
    [visited_urls] when it is tested. *)
Theorem skip_branch_never_taken
    (k : site) (d : string) (m n : Z) (schedule : list (nat * fetch_result)) :
  Engine.skipped (Engine.trace (Engine.run k (Engine.start d m n) schedule)) = [].
Proof. apply inv_run, inv_start. Qed.

(** C4, as amended: in every run with a budget [max_urls] that is not
    negative, at every step as many URLs are in [visited_urls] as
    [process_url] was called with, and they are at most [max_urls]. *)
Theorem visited_within_budget
    (k : site) (d : string) (m n : Z) (schedule : list (nat * fetch_result)) :
  (0 ≤ m)%Z →
  let s := Engine.run k (Engine.start d m n) schedule in
  List.length (Engine.dispatched (Engine.trace s)) = size (visited_urls (Engine.crawler s)) ∧
  (Z.of_nat (size (visited_urls (Engine.crawler s))) ≤ m)%Z.
Proof.
  intros Hm s.
  assert (Hinv : Engine.inv s) by apply inv_run, inv_start.
  assert (Hmax : max_urls (Engine.crawler s) = m) by apply run_max_urls.
  destruct Hinv as [_ _ _ _ _ Hcnt _ Hbud].
  split; [done|]. rewrite <- Hmax. apply Hbud. by rewrite Hmax.
Qed.

Lemma visited_within_budget_witness :
  (0 ≤ 1)%Z ∧
  let s := Engine.run Generic (Engine.start "https://shop.example/" 1 2)
             [(0%nat, TransportError); (1%nat, TransportError); (0%nat, TransportError)] in
  List.length (Engine.dispatched (Engine.trace s)) = size (visited_urls (Engine.crawler s)) ∧
  (Z.of_nat (size (visited_urls (Engine.crawler s))) ≤ 1)%Z.
Proof.
  split; [lia|].
  apply (visited_within_budget Generic "https://shop.example/" 1 2
           [(0%nat, TransportError); (1%nat, TransportError); (0%nat, TransportError)]).
  lia.
Defined.

(** C4, as stated, fails for a negative budget: with [max_urls = -1] the
    worker leaves at once, and the empty [visited_urls] has more than [-1]
    elements. *)
Lemma negative_budget_is_exceeded :
  let s := Engine.run Generic (Engine.start "https://shop.example/" (-1) 1)
             [(0%nat, TransportError)] in
  Engine.workers s = [Engine.Exited] ∧
  Engine.trace s = [Engine.ExitBudget] ∧
  ¬ (Z.of_nat (size (visited_urls (Engine.crawler s))) ≤ max_urls (Engine.crawler s))%Z.
Proof. vm_compute. split_and!; [done | done | intros H; by apply H]. Qed.

(** ** Properties of the classifier *)

Lemma startswith_app_l x y s :
  Py.startswith (x ++ y) s = true → Py.startswith x s = true.
Proof.
  revert s. induction x as [|a x IH]; intros s; simpl; [done|].
  destruct s as [|b s]; [done|].
  intros [-> H]%andb_true_iff. by rewrite (IH _ H).
Qed.

Lemma contains_startswith x s : Py.startswith x s = true → Py.contains x s = true.
Proof. intros H. destruct s; simpl; by rewrite H. Qed.

Lemma startswith_app_r x y s :
  Py.startswith (x ++ y) s = true → Py.contains y s = true.
Proof.
  revert s. induction x as [|a x IH]; intros s; simpl.
  - apply contains_startswith.
  - destruct s as [|b s]; [done|].
    intros [_ H]%andb_true_iff. simpl. rewrite (IH _ H). apply orb_true_r.
Qed.

Lemma contains_app x y s :
  Py.contains (x ++ y) s = true → Py.contains x s = true ∧ Py.contains y s = true.
Proof.
  induction s as [|b s IH].
  - intros H. simpl in H. rewrite orb_false_r in H.
    split; [apply contains_startswith; by eapply startswith_app_l
           | by eapply startswith_app_r].
  - intros H. change (Py.startswith (x ++ y) (String b s) || Py.contains (x ++ y) s = true) in H.
    apply orb_true_iff in H as [H|H].
    + split; [apply contains_startswith; by eapply startswith_app_l
             | by eapply startswith_app_r].
    + destruct (IH H) as [Hx Hy]. simpl. rewrite Hx, Hy. by rewrite !orb_true_r.
Qed.

Lemma metadata_of_first_block soup tag s :
  Soup.find ["script"] is_ld_json soup = Some tag →
  Soup.string_of tag = Some s →
  Py.contains product_type_decl s = true →
  ProductIdentifier._check_metadata soup = true.
Proof.
  intros Hfind Hstr Hdecl. unfold ProductIdentifier._check_metadata.
  fold is_ld_json. rewrite Hfind, Hstr.
  change product_type_decl
    with ((dq ++ "@type" ++ dq) ++ (":" ++ (dq ++ "Product" ++ dq))) in Hdecl.
  apply contains_app in Hdecl as [Ha Hb].
  apply (contains_app ":") in Hb as [_ Hb].
  rewrite Ha, Hb. by destruct s.
Qed.

(** X22: [is_product_page] is the disjunction of its three signals wherever
    the URL check returns; so a document whose first JSON-LD script block
    (the one [soup.find] returns) has ["@type":"Product"] in its text is
    classified as a product, whatever the URL pattern and content signals
    say. *)
Theorem classifier_is_or_of_signals :
  (∀ url html soup u,
     ProductIdentifier._check_url_pattern url = Some u →
     ProductIdentifier.is_product_page url html soup =
       Some (u || ProductIdentifier._check_page_content html soup
               || ProductIdentifier._check_metadata soup)) ∧
  (∀ url html soup tag s,
     is_Some (ProductIdentifier._check_url_pattern url) →
     Soup.find ["script"] is_ld_json soup = Some tag →
     Soup.string_of tag = Some s →
     Py.contains product_type_decl s = true →
     ProductIdentifier.is_product_page url html soup = Some true).
Proof.
  assert (Hor : ∀ url html soup u,
     ProductIdentifier._check_url_pattern url = Some u →
     ProductIdentifier.is_product_page url html soup =
       Some (u || ProductIdentifier._check_page_content html soup
               || ProductIdentifier._check_metadata soup)).
  { intros url html soup u Hu. unfold ProductIdentifier.is_product_page. rewrite Hu.
    destruct u; [done|]. simpl.
    destruct (ProductIdentifier._check_page_content html soup); [done|].
    by destruct (ProductIdentifier._check_metadata soup). }
  split; [exact Hor|].
  intros url html soup tag s [u Hu] Hfind Hstr Hdecl.
  rewrite (Hor _ _ _ _ Hu), (metadata_of_first_block _ _ _ Hfind Hstr Hdecl).
  by rewrite orb_true_r.
Qed.

Lemma classifier_is_or_of_signals_witness :
  ProductIdentifier._check_url_pattern plain_url = Some false ∧
  ProductIdentifier.is_product_page plain_url one_block_html one_block_soup = Some true.
Proof.
  split; [by vm_compute|].
  apply (proj2 classifier_is_or_of_signals plain_url one_block_html one_block_soup
           (ld_script product_ld) product_ld);
    [exists false | ..]; vm_compute; reflexivity.
Defined.

(** C5 at the failing input: the second JSON-LD script block of this
    document declares ["@type":"Product"], the URL and the content give no
    signal, and [is_product_page] returns false: [_check_metadata] looks for
    the declaration in the block that [soup.find] returns, the first one. *)
Lemma product_in_second_block_is_missed :
  ld_script product_ld ∈ Soup.find_all ["script"] is_ld_json two_block_soup ∧
  Soup.string_of (ld_script product_ld) = Some product_ld ∧
  Py.contains product_type_decl product_ld = true ∧
  ProductIdentifier.is_product_page plain_url two_block_html two_block_soup = Some false.
Proof.
  split_and!; [|by vm_compute..].
  unfold Soup.find_all, Soup.select. apply list_elem_of_In, filter_In. split.
  - vm_compute. auto 10.
  - by vm_compute.
Qed.

(** ** Properties of the site strategies *)

Lemma priority_loop_true paths url : Nykaa.priority_loop paths url = true.
Proof. induction paths as [|p paths IH]; simpl; [done|]. by destruct (Py.contains p url). Qed.

(** C9: [NykaaCrawler.should_crawl] returns, or raises, exactly as the same
    function without its loop over [priority_paths]. *)
Theorem nykaa_priority_loop_is_noop (d : string) (url : pyval) :
  Nykaa.should_crawl d url = Nykaa.should_crawl_without_priority d url.
Proof.
  unfold Nykaa.should_crawl, Nykaa.should_crawl_without_priority.
  destruct url as [|u]; [done|].
  by rewrite priority_loop_true.
Qed.

Lemma nonempty_of_excluded e url :
  e ∈ Nykaa.excluded_paths → Py.contains e url = true → Py.truthy url = true.
Proof.
  intros He Hin. destruct url; [|done].
  unfold Nykaa.excluded_paths in He.
  repeat (apply elem_of_cons in He as [->|He]; [by vm_compute in Hin|]).
  inversion He.
Qed.

(** C6, as amended: on a URL that holds both one of the priority paths and
    one of the excluded paths, [NykaaCrawler.should_crawl] never returns
    true: it returns false when [urlparse] accepts the URL and the crawl
    root, and otherwise raises the [ValueError] of [urlparse]. *)
Theorem nykaa_exclusion_precedes_priority (d url : string) :
  (∃ p, p ∈ Nykaa.priority_paths ∧ Py.contains p url = true) →
  (∃ e, e ∈ Nykaa.excluded_paths ∧ Py.contains e url = true) →
  Nykaa.should_crawl d (PyStr url) =
    match Urllib.urlparse url EmptyString, Urllib.urlparse d EmptyString with
    | Some _, Some _ => Some false
    | _, _ => None
    end.
Proof.
  intros _ (e & He & Hin).
  assert (Hex : excluded Nykaa.excluded_paths url = true).
  { apply existsb_exists. exists e. by rewrite <- list_elem_of_In. }
  unfold Nykaa.should_crawl.
  rewrite (nonempty_of_excluded _ _ He Hin). cbn [negb].
  unfold Base.should_crawl.
  destruct (Urllib.urlparse url EmptyString) as [parsed_url|]; [|done].
  destruct (Urllib.urlparse d EmptyString) as [parsed_domain|]; [|done].
  cbn [mbind option_bind]. rewrite Hex.
  by destruct (negb _).
Qed.

Lemma nykaa_exclusion_precedes_priority_witness :
  Nykaa.should_crawl "https://nykaafashion.com/"
    (PyStr "https://nykaafashion.com/products/cart/") = Some false.
Proof.
  rewrite (nykaa_exclusion_precedes_priority
             "https://nykaafashion.com/" "https://nykaafashion.com/products/cart/").
  - by vm_compute.
  - exists "/products/". split; [set_solver | by vm_compute].
  - exists "/cart". split; [set_solver | by vm_compute].
Defined.

(** C6, as stated, fails: this URL holds the priority path [/products/] and
    the excluded path [/cart], and [should_crawl] does not return false on
    it: [urlparse] raises [ValueError] on the unmatched bracket, before any
    exclusion is looked at. *)
Lemma excluded_priority_url_raises :
  let url := "http://[/products/cart" in
  "/products/" ∈ Nykaa.priority_paths ∧ Py.contains "/products/" url = true ∧
  "/cart" ∈ Nykaa.excluded_paths ∧ Py.contains "/cart" url = true ∧
  Urllib.urlparse url EmptyString = None ∧
  Nykaa.should_crawl "https://nykaafashion.com/" (PyStr url) = None.
Proof. split_and!; try by vm_compute. all: set_solver. Qed.

(** ** The generic classification inside the overrides *)

Lemma base_try_records_positive extract should c url html soup :
  ProductIdentifier.is_product_page url html soup = Some true →
  url ∈ product_urls
          (fst (Base.process_url_try extract should c url (Response 200 (Some (html, soup))))).
Proof.
  intros H. unfold Base.process_url_try. simpl. rewrite H.
  destruct (extract soup url) as [links|]; simpl; [|set_solver].
  destruct (enqueue_links _ _ _). simpl. set_solver.
Qed.

(** The generic crawler and the two overrides that call
    [super().process_url] record every URL that the generic classifier
    accepts. *)
Lemma delegating_overrides_keep_generic_positive k c url html soup :
  k = Generic ∨ k = VirgioSite ∨ k = WestsideSite →
  ProductIdentifier.is_product_page url html soup = Some true →
  url ∈ product_urls (fst (process_url k c url (Response 200 (Some (html, soup))))).
Proof.
  intros Hk H.
  destruct Hk as [-> | [-> | ->]]; simpl.
  - by apply base_try_records_positive.
  - unfold Virgio.process_url. simpl.
    pose proof (base_try_records_positive Base.extract_links
                  (Base.should_crawl (domain c)) c url html soup H) as Hin.
    destruct (_ && _); simpl; set_solver.
  - unfold Westside.process_url. simpl.
    pose proof (base_try_records_positive (Westside.extract_links (domain c))
                  (Westside.should_crawl (domain c)) c url html soup H) as Hin.
    unfold add_if_any_pattern. destruct (existsb _ _); simpl; set_solver.
Qed.

(** C1 at the failing input: the generic classifier accepts [/item/1] by its
    URL pattern, and neither [NykaaCrawler.process_url] nor
    [TatacliqCrawler.process_url], which do not call it, records the URL. *)
Theorem nykaa_tatacliq_drop_generic_positive :
  let page := Response 200 (Some (empty_html, empty_soup)) in
  ProductIdentifier.is_product_page "https://nykaafashion.com/item/1" empty_html empty_soup
    = Some true ∧
  product_urls
    (fst (process_url NykaaSite (new_crawler "https://nykaafashion.com/" 1000 5)
            "https://nykaafashion.com/item/1" page)) = ∅ ∧
  ProductIdentifier.is_product_page "https://www.tatacliq.com/item/1" empty_html empty_soup
    = Some true ∧
  product_urls
    (fst (process_url TatacliqSite (new_crawler "https://www.tatacliq.com/" 1000 5)
            "https://www.tatacliq.com/item/1" page)) = ∅.
Proof. by vm_compute. Qed.

(** ** Failures on one URL *)

Lemma no_content_base extract should c url r :
  no_content r = true → fst (Base.process_url_try extract should c url r) = c.
Proof.
  destruct r as [|status [[html soup]|]]; simpl; try done.
  - rewrite orb_false_r. by intros ->.
  - by destruct (negb _).
Qed.

Lemma no_content_unchanged k c url r :
  no_content r = true →
  frontier (fst (process_url k c url r)) = frontier c ∧
  (k = Generic ∨ k = TatacliqSite ∨ k = NykaaSite → fst (process_url k c url r) = c).
Proof.
  intros Hr. destruct k; simpl.
  - by rewrite no_content_base.
  - unfold Virgio.process_url. simpl. rewrite no_content_base by done.
    split; [by destruct (_ && _) | naive_solver].
  - assert (fst (Tatacliq.process_url_try c url r) = c) as ->; [|done].
    destruct r as [|status [[html soup]|]]; simpl in *; try done.
    + rewrite orb_false_r in Hr. by rewrite Hr.
    + by destruct (negb _).
  - assert (fst (Nykaa.process_url_try c url r) = c) as ->; [|done].
    destruct r as [|status [[html soup]|]]; simpl in *; try done.
    + rewrite orb_false_r in Hr. by rewrite Hr.
    + by destruct (negb _).
  - unfold Westside.process_url. simpl. rewrite no_content_base by done.
    split; [|naive_solver]. unfold add_if_any_pattern. by destruct (existsb _ _).
Qed.

Lemma step_other k s i j r :
  i ≠ j → Engine.workers (Engine.step k s (j, r)) !! i = Engine.workers s !! i.
Proof.
  intros Hne. destruct s as [c ws t]. unfold Engine.step. simpl.
  destruct (ws !! j) as [[|url| | |]|]; try done.
  - destruct (Engine.loop_head c) as [[c' p] e]. simpl. by rewrite list_lookup_insert_ne.
  - destruct (Engine.finish k c url r) as [[c' p] e]. simpl. by rewrite list_lookup_insert_ne.
  - simpl. by rewrite list_lookup_insert_ne.
Qed.

Lemma loop_head_cases c :
  let '(_, p, _) := Engine.loop_head c in
  (p = Engine.Exited ∧
   (Frontier.is_empty (frontier c) = true ∨
    (max_urls c ≤ Z.of_nat (size (visited_urls c)))%Z)) ∨
  p = Engine.AtLoop ∨ (∃ url, p = Engine.InProcess url).
Proof.
  unfold Engine.loop_head.
  destruct (Frontier.is_empty (frontier c)) eqn:Hempty; [left; by auto|].
  destruct (max_urls c <=? _)%Z eqn:Hmax.
  { left. split; [done|]. right. by apply Z.leb_le. }
  destruct (Frontier.get (frontier c)) as [[url f]|] eqn:Hget.
  - destruct (decide _); [by right; left | right; right; by eexists].
  - unfold Frontier.get, Frontier.is_empty in *. by destruct (queue (frontier c)).
Qed.

Lemma step_self k s i r :
  match Engine.workers s !! i with
  | Some Engine.AtLoop =>
      (Engine.workers (Engine.step k s (i, r)) !! i = Some Engine.Exited ∧
       (Frontier.is_empty (frontier (Engine.crawler s)) = true ∨
        (max_urls (Engine.crawler s)
         ≤ Z.of_nat (size (visited_urls (Engine.crawler s))))%Z)) ∨
      Engine.workers (Engine.step k s (i, r)) !! i = Some Engine.AtLoop ∨
      (∃ url, Engine.workers (Engine.step k s (i, r)) !! i = Some (Engine.InProcess url))
  | Some (Engine.InProcess _) =>
      Engine.workers (Engine.step k s (i, r)) !! i = Some Engine.Sleeping
  | Some Engine.Sleeping =>
      Engine.workers (Engine.step k s (i, r)) !! i = Some Engine.AtLoop
  | other => Engine.workers (Engine.step k s (i, r)) !! i = other
  end.
Proof.
  destruct s as [c ws t]. unfold Engine.step. simpl.
  destruct (ws !! i) as [[|url| | |]|] eqn:Hi; try done.
  - pose proof (loop_head_cases c) as H.
    destruct (Engine.loop_head c) as [[c' p] e]. simpl.
    rewrite list_lookup_insert_eq by by eapply lookup_lt_Some.
    destruct H as [[-> H]|[->|[url ->]]]; [by left | by right; left | right; right; by eexists].
  - unfold Engine.finish. pose proof (process_url_returns k c url r) as H.
    destruct (process_url k c url r) as [c' how]. simpl in *. subst how.
    by rewrite list_lookup_insert_eq by by eapply lookup_lt_Some.
  - simpl. by rewrite list_lookup_insert_eq by by eapply lookup_lt_Some.
Qed.

Lemma step_never_crashes k s a i :
  Engine.workers s !! i ≠ Some Engine.Crashed →
  Engine.workers (Engine.step k s a) !! i ≠ Some Engine.Crashed.
Proof.
  destruct a as [j r]. intros Hi. destruct (decide (i = j)) as [<-|Hne].
  - pose proof (step_self k s i r) as H.
    destruct (Engine.workers s !! i) as [[|url| | |]|]; try congruence.
    destruct H as [[-> _]|[->|[url ->]]]; done.
  - by rewrite step_other.
Qed.

Lemma enqueue_links_raises should pre bad post f :
  should bad = None →
  (∀ l, l ∈ pre → is_Some (should l)) →
  enqueue_links should (pre ++ bad :: post) f
    = (Frontier.add_all (admitted should pre) f, Raised).
Proof.
  intros Hbad. unfold admitted. revert f.
  induction pre as [|l pre IH]; intros f Hpre; simpl.
  - by rewrite Hbad.
  - destruct (Hpre l) as [b Hl]; [by left|].
    assert (Hrest : ∀ l', l' ∈ pre → is_Some (should l'))
      by (intros l' Hl'; apply Hpre; by right).
    rewrite Hl. destruct b.
    + rewrite filter_cons_True by done. simpl. by apply IH.
    + rewrite filter_cons_False by congruence. by apply IH.
Qed.

Lemma enqueue_links_returns should links f :
  (∀ l, l ∈ links → is_Some (should l)) →
  enqueue_links should links f = (Frontier.add_all (admitted should links) f, Returned).
Proof.
  unfold admitted. revert f.
  induction links as [|l links IH]; intros f Hall; simpl; [done|].
  destruct (Hall l) as [b Hl]; [by left|].
  assert (Hrest : ∀ l', l' ∈ links → is_Some (should l'))
    by (intros l' Hl'; apply Hall; by right).
  rewrite Hl. destruct b.
  - rewrite filter_cons_True by done. simpl. by apply IH.
  - rewrite filter_cons_False by congruence. by apply IH.
Qed.

Lemma base_try_classifier_raises extract should c url html soup :
  ProductIdentifier.is_product_page url html soup = None →
  Base.process_url_try extract should c url (Response 200 (Some (html, soup))) = (c, Raised).
Proof. intros H. unfold Base.process_url_try. simpl. by rewrite H. Qed.

Lemma base_try_extract_raises extract should c url html soup is_product :
  ProductIdentifier.is_product_page url html soup = Some is_product →
  extract soup url = None →
  Base.process_url_try extract should c url (Response 200 (Some (html, soup)))
    = (classified is_product url c, Raised).
Proof.
  intros H1 H2. unfold Base.process_url_try, classified. simpl. by rewrite H1, H2.
Qed.

Lemma base_try_admission_raises extract should c url html soup is_product pre bad post :
  ProductIdentifier.is_product_page url html soup = Some is_product →
  extract soup url = Some (pre ++ bad :: post)%list →
  should bad = None →
  (∀ l, l ∈ pre → is_Some (should l)) →
  Base.process_url_try extract should c url (Response 200 (Some (html, soup)))
    = (enqueued should pre (classified is_product url c), Raised).
Proof.
  intros H1 H2 Hbad Hpre. unfold Base.process_url_try, enqueued. simpl.
  rewrite H1, H2. fold (classified is_product url c).
  by rewrite (enqueue_links_raises _ _ _ _ _ Hbad Hpre).
Qed.

Lemma no_content_tatacliq c url r :
  no_content r = true → fst (Tatacliq.process_url_try c url r) = c.
Proof.
  intros Hr. destruct r as [|status [[html soup]|]]; simpl in *; try done.
  - rewrite orb_false_r in Hr. by rewrite Hr.
  - by destruct (negb _).
Qed.

Lemma no_content_nykaa c url r :
  no_content r = true → fst (Nykaa.process_url_try c url r) = c.
Proof.
  intros Hr. destruct r as [|status [[html soup]|]]; simpl in *; try done.
  - rewrite orb_false_r in Hr. by rewrite Hr.
  - by destruct (negb _).
Qed.

(** C8, as amended. (1) Every [process_url] returns, whatever the answer,
    and touches nothing but the product set and the frontier, which only
    grow. (2) On an answer without content (transport error, status other
    than 200, body that cannot be read or parsed) [Crawler.process_url],
    whatever [extract_links] and [should_crawl] its class gives it, leaves
    the crawler as it was, and so do the TataCliq and Nykaa methods that
    repeat its body; no class enqueues a link. (3-5) An exception raised
    later in [Crawler.process_url] is absorbed too, and the state reached
    when it is raised is the state returned: nothing, when
    [is_product_page] raises; the classification, when [extract_links]
    raises; the classification and the admitted links that precede the
    raising one, when [should_crawl] raises. (6) The worker then pauses and
    comes back to the head of its loop; (7) a worker leaves only from the
    head of the loop, on an empty frontier or a spent budget; (8) no worker
    is ever stopped by an exception. *)
Theorem per_url_failures_are_absorbed :
  (∀ k c url r,
     snd (process_url k c url r) = Returned ∧ extends c (fst (process_url k c url r))) ∧
  (∀ c url r,
     no_content r = true →
     (∀ extract should, Base.process_url_with extract should c url r = (c, Returned)) ∧
     Tatacliq.process_url c url r = (c, Returned) ∧
     Nykaa.process_url c url r = (c, Returned) ∧
     (∀ k, frontier (fst (process_url k c url r)) = frontier c)) ∧
  (∀ extract should c url html soup,
     let r := Response 200 (Some (html, soup)) in
     ProductIdentifier.is_product_page url html soup = None →
     Base.process_url_try extract should c url r = (c, Raised) ∧
     Base.process_url_with extract should c url r = (c, Returned)) ∧
  (∀ extract should c url html soup is_product,
     let r := Response 200 (Some (html, soup)) in
     ProductIdentifier.is_product_page url html soup = Some is_product →
     extract soup url = None →
     Base.process_url_try extract should c url r = (classified is_product url c, Raised) ∧
     Base.process_url_with extract should c url r
       = (classified is_product url c, Returned)) ∧
  (∀ extract should c url html soup is_product pre bad post,
     let r := Response 200 (Some (html, soup)) in
     ProductIdentifier.is_product_page url html soup = Some is_product →
     extract soup url = Some (pre ++ bad :: post)%list →
     should bad = None →
     (∀ link, link ∈ pre → is_Some (should link)) →
     Base.process_url_try extract should c url r
       = (enqueued should pre (classified is_product url c), Raised) ∧
     Base.process_url_with extract should c url r
       = (enqueued should pre (classified is_product url c), Returned)) ∧
  (∀ k s i url r r',
     Engine.workers s !! i = Some (Engine.InProcess url) →
     Engine.workers (Engine.step k s (i, r)) !! i = Some Engine.Sleeping ∧
     Engine.workers (Engine.step k (Engine.step k s (i, r)) (i, r')) !! i
       = Some Engine.AtLoop) ∧
  (∀ k s i j r,
     Engine.workers (Engine.step k s (j, r)) !! i = Some Engine.Exited →
     Engine.workers s !! i = Some Engine.Exited ∨
     (Engine.workers s !! i = Some Engine.AtLoop ∧
      (Frontier.is_empty (frontier (Engine.crawler s)) = true ∨
       (max_urls (Engine.crawler s)
        ≤ Z.of_nat (size (visited_urls (Engine.crawler s))))%Z))) ∧
  (∀ k d m n schedule i,
     Engine.workers (Engine.run k (Engine.start d m n) schedule) !! i
       ≠ Some Engine.Crashed).
Proof.
  split_and!.
  - intros. split; [apply process_url_returns | apply extends_process_url].
  - intros c url r Hr. split_and!.
    + intros extract should. unfold Base.process_url_with.
      by rewrite no_content_base.
    + unfold Tatacliq.process_url. by rewrite no_content_tatacliq.
    + unfold Nykaa.process_url. by rewrite no_content_nykaa.
    + intros k. by apply no_content_unchanged.
  - intros extract should c url html soup r H. unfold Base.process_url_with.
    by rewrite (base_try_classifier_raises _ _ _ _ _ _ H).
  - intros extract should c url html soup is_product r H1 H2.
    unfold Base.process_url_with.
    by rewrite (base_try_extract_raises _ _ _ _ _ _ _ H1 H2).
  - intros extract should c url html soup is_product pre bad post r H1 H2 Hbad Hpre.
    unfold Base.process_url_with.
    by rewrite (base_try_admission_raises _ _ _ _ _ _ _ _ _ _ H1 H2 Hbad Hpre).
  - intros k s i url r r' Hi.
    pose proof (step_self k s i r) as H1. rewrite Hi in H1.
    pose proof (step_self k (Engine.step k s (i, r)) i r') as H2. by rewrite H1 in H2.
  - intros k s i j r Hexit. destruct (decide (i = j)) as [<-|Hne].
    + pose proof (step_self k s i r) as H.
      destruct (Engine.workers s !! i) as [[|url| | |]|]; try congruence; [|by left].
      right. destruct H as [[_ H]|[H|[url H]]]; [done | congruence..].
    + left. by rewrite step_other in Hexit.
  - intros k d m n schedule i.
    assert (H0 : Engine.workers (Engine.start d m n) !! i ≠ Some Engine.Crashed).
    { simpl. intros [H _]%lookup_replicate. done. }
    revert H0. generalize (Engine.start d m n).
    induction schedule as [|a schedule IH]; intros s Hs; simpl; [done|].
    apply IH. by apply step_never_crashes.
Qed.

Lemma per_url_failures_are_absorbed_witness :
  Base.process_url shop_crawler "https://shop.example/p/1" (Response 404 None)
    = (shop_crawler, Returned) ∧
  Base.process_url shop_crawler "https://shop.example/p/1"
      (Response 200 (Some (bad_link_html, bad_link_soup)))
    = (classified true "https://shop.example/p/1" shop_crawler, Returned) ∧
  Base.process_url_with (Westside.extract_links (domain westside_crawler))
      (Westside.should_crawl (domain westside_crawler)) westside_crawler
      "https://www.westside.com/sale"
      (Response 200 (Some (westside_grid_html, westside_grid_soup)))
    = (enqueued (Westside.should_crawl (domain westside_crawler))
         ["https://www.westside.com/a"; "https://www.westside.com/sale";
          "https://www.westside.com/a"]
         (classified false "https://www.westside.com/sale" westside_crawler), Returned).
Proof.
  destruct per_url_failures_are_absorbed as (_ & Hnone & _ & Hextract & Hadmit & _).
  split_and!.
  - apply (Hnone shop_crawler "https://shop.example/p/1" (Response 404 None)).
    reflexivity.
  - apply (Hextract Base.extract_links (Base.should_crawl (domain shop_crawler))
             shop_crawler "https://shop.example/p/1" bad_link_html bad_link_soup true);
      vm_compute; reflexivity.
  - apply (Hadmit (Westside.extract_links (domain westside_crawler))
             (Westside.should_crawl (domain westside_crawler)) westside_crawler
             "https://www.westside.com/sale" westside_grid_html westside_grid_soup false
             ["https://www.westside.com/a"; "https://www.westside.com/sale";
              "https://www.westside.com/a"] "https://[" []);
      [vm_compute; reflexivity .. |].
    intros link Hlink.
    repeat (apply elem_of_cons in Hlink as [->|Hlink];
            [eexists; vm_compute; reflexivity|]).
    inversion Hlink.
Defined.

(** C8, as stated, fails: here the [try] block of [Crawler.process_url] is
    left by the [ValueError] of [urljoin], after the URL has been recorded as
    a product; the record stays. *)
Lemma late_exception_keeps_classification :
  let url := "https://shop.example/p/1" in
  let r := Response 200 (Some (bad_link_html, bad_link_soup)) in
  Base.process_url_try Base.extract_links (Base.should_crawl (domain shop_crawler))
                       shop_crawler url r
    = (add_product url shop_crawler, Raised) ∧
  product_urls shop_crawler = ∅ ∧
  product_urls (fst (process_url Generic shop_crawler url r)) = {[ url ]}.
Proof. by vm_compute. Qed.

(** On the Westside crawler an exception can also come once links have been
    enqueued: the address taken from [data-product-url] is not parsed before
    [should_crawl] sees it. The links enqueued before it stay. *)
Example westside_late_exception_keeps_links :
  let url := "https://www.westside.com/sale" in
  let r := Response 200 (Some (westside_grid_html, westside_grid_soup)) in
  Westside.extract_links (domain westside_crawler) westside_grid_soup url
    = Some ["https://www.westside.com/a"; "https://www.westside.com/sale";
            "https://www.westside.com/a"; "https://["] ∧
  snd (Base.process_url_try (Westside.extract_links (domain westside_crawler))
         (Westside.should_crawl (domain westside_crawler)) westside_crawler url r) = Raised ∧
  queue (frontier (fst (process_url WestsideSite westside_crawler url r)))
    = ["https://www.westside.com/a"; "https://www.westside.com/sale"].
Proof. by vm_compute. Qed.

(** On the Westside and Virgio crawlers the URL pattern is tested after
    [super().process_url] has returned, also when the status was not 200. *)
Example westside_records_pattern_on_404 :
  product_urls (fst (process_url WestsideSite westside_crawler
                       "https://www.westside.com/product/1" (Response 404 None)))
  = {[ "https://www.westside.com/product/1" ]}.
Proof. by vm_compute. Qed.

(** ** The scenario of the design document

    The seed page links to [/p/123] and says "Add to Cart"; the link is
    enqueued, fetched and recorded as a product by its URL pattern, and the
    single worker leaves when the frontier is empty. *)
Example end_to_end :
  let s := Engine.run Generic (Engine.start "https://shop.example/" 1000 1) scenario in
  Engine.trace s =
    [Engine.Dispatch "https://shop.example";
     Engine.Processed "https://shop.example" Returned;
     Engine.Wake;
     Engine.Dispatch "https://shop.example/p/123";
     Engine.Processed "https://shop.example/p/123" Returned;
     Engine.Wake;
     Engine.ExitEmpty] ∧
  Engine.workers s = [Engine.Exited] ∧
  product_urls (Engine.crawler s) = {[ "https://shop.example/p/123" ]} ∧
  queue (frontier (Engine.crawler s)) = [].
Proof. by vm_compute. Qed.

(** Two workers that reach the head of the loop one after the other: the
    second finds the frontier empty and leaves, though the first is still
    fetching. *)
Example second_worker_leaves_early :
  let s := Engine.run Generic (Engine.start "https://shop.example/" 1000 2)
             [(0%nat, TransportError); (1%nat, TransportError)] in
  Engine.workers s = [Engine.InProcess "https://shop.example"; Engine.Exited].
Proof. by vm_compute. Qed.

(** ** The patterns on sample URLs *)

Example nykaa_patterns_sample :
  map (fun url => existsb (fun p => Re.search p url) Nykaa.nykaa_product_patterns)
      ["https://nykaafashion.com/x/p/123"; "https://nykaafashion.com/x/p/abc";
       "https://nykaafashion.com/dress-p42"; "https://nykaafashion.com/dress-p42/";
       "https://nykaafashion.com/fashion/women/p/"; "https://nykaafashion.com/fashion//p/"]
  = [true; false; true; false; true; false].
Proof. by vm_compute. Qed.

Example westside_patterns_sample :
  map (fun url => existsb (fun p => Re.search p url) Westside.westside_product_patterns)
      ["https://www.westside.com/a/b/blue-shirt-123.html";
       "https://www.westside.com/a/blue-shirt-123.htm";
       "https://www.westside.com/a/b?productid=1";
       "https://www.westside.com/collections/all"]
  = [true; false; true; false].
Proof. by vm_compute. Qed.

Example tatacliq_scripts_sample :
  map Tatacliq._check_product_scripts
      [dq ++ "productId" ++ dq ++ " : " ++ dq ++ "MP1";
       dq ++ "productId" ++ dq ++ ":" ++ dq ++ dq;
       dq ++ "product" ++ dq ++ ": {";
       "var pdpPageData = 1"; "<html></html>"]
  = [true; false; true; true; false].
Proof. by vm_compute. Qed.

(** ** More on the frontier *)

Lemma endswith_cons p a s :
  Py.endswith p (String a s) = String.eqb p (String a s) || Py.endswith p s.
Proof. done. Qed.

Lemma rstrip_cons c a s :
  Py.rstrip c (String a s) =
  match Py.rstrip c s with
  | EmptyString => if Ascii.eqb a c then EmptyString else String a EmptyString
  | r => String a r
  end.
Proof. done. Qed.

Lemma slash_eqb_single a s :
  String.eqb "/" (String a s) = Ascii.eqb a "/" && String.eqb "" s.
Proof. cbn [String.eqb]. rewrite Ascii.eqb_sym. by destruct (Ascii.eqb a "/"). Qed.

Lemma endswith_slash_rstrip s : Py.endswith "/" (Py.rstrip "/" s) = false.
Proof.
  induction s as [|a s IH]; [done|].
  rewrite rstrip_cons. destruct (Py.rstrip "/" s) as [|b r] eqn:E.
  - destruct (Ascii.eqb a "/") eqn:Ea; [done|].
    by rewrite endswith_cons, slash_eqb_single, Ea.
  - rewrite endswith_cons, IH, slash_eqb_single. cbn [String.eqb].
    by rewrite andb_false_r.
Qed.

Lemma rstrip_fixed s : Py.endswith "/" s = false → Py.rstrip "/" s = s.
Proof.
  induction s as [|a s IH]; [done|].
  rewrite endswith_cons, slash_eqb_single.
  intros [H1 H2]%orb_false_iff. rewrite rstrip_cons, (IH H2).
  destruct s as [|b s]; [|done].
  destruct (Ascii.eqb a "/"); [done|done].
Qed.

(** X1: [add] never puts a URL that ends with a slash into the queue, and a
    URL that does not end with a slash is enqueued as it is. *)
Theorem queue_entries_have_no_trailing_slash :
  (∀ urls u, u ∈ queue (Frontier.add_all urls Frontier.new) → Py.endswith "/" u = false) ∧
  (∀ url, Py.endswith "/" url = false →
          queue (Frontier.add url Frontier.new) = [url]).
Proof.
  split.
  - intros urls u Hu.
    destruct (wf_add_all urls _ wf_new) as [_ _ Hnorm].
    rewrite <- (Hnorm u Hu). apply endswith_slash_rstrip.
  - intros url H. unfold Frontier.add, Frontier.normalize.
    rewrite (rstrip_fixed _ H). destruct (decide _) as [Hin|]; [|done].
    simpl in Hin. set_solver.
Qed.

Lemma queue_entries_have_no_trailing_slash_witness :
  Py.endswith "/" "https://x/a" = false ∧
  queue (Frontier.add "https://x/a" Frontier.new) = ["https://x/a"].
Proof.
  split; [reflexivity|].
  apply (proj2 queue_entries_have_no_trailing_slash "https://x/a"). reflexivity.
Defined.

(** X2: two URLs with the same normal form are one URL for [add]: after the
    first is added, adding the second changes nothing; in particular [add]
    is idempotent. *)
Theorem add_same_normal_form_is_noop (u1 u2 : string) (f : URLFrontier) :
  Frontier.normalize u1 = Frontier.normalize u2 →
  Frontier.add u2 (Frontier.add u1 f) = Frontier.add u1 f.
Proof.
  intros Heq. unfold Frontier.add at 1. rewrite <- Heq.
  destruct (decide _) as [|Hnin]; [done|].
  exfalso. apply Hnin. rewrite seen_add. set_solver.
Qed.

Lemma add_same_normal_form_is_noop_witness :
  Frontier.normalize "https://x/a" = Frontier.normalize "https://x/a//" ∧
  Frontier.add "https://x/a//" (Frontier.add "https://x/a" Frontier.new)
    = Frontier.add "https://x/a" Frontier.new.
Proof.
  split; [reflexivity|].
  apply (add_same_normal_form_is_noop "https://x/a" "https://x/a//" Frontier.new).
  reflexivity.
Defined.

Lemma filter_first_occurrences (P : string → Prop) `{∀ x, Decision (P x)} l :
  filter P (first_occurrences l) = first_occurrences (filter P l).
Proof.
  induction l as [|x l IH]; [done|]. simpl.
  rewrite !filter_cons. destruct (decide (P x)) as [HP|HP].
  - simpl. rewrite <- IH. f_equal. rewrite !list_filter_filter.
    apply list_filter_iff. naive_solver.
  - rewrite <- IH. rewrite list_filter_filter. apply list_filter_iff.
    intros y. split; [naive_solver|]. intros Hy. split; [done|]. by intros ->.
Qed.

Lemma add_known url f :
  Frontier.normalize url ∈ seen_urls f → Frontier.add url f = f.
Proof. intros H. unfold Frontier.add. by rewrite decide_True. Qed.

Lemma add_fresh url f :
  Frontier.normalize url ∉ seen_urls f →
  Frontier.add url f =
  mkFrontier (queue f ++ [Frontier.normalize url])
             (seen_urls f ∪ {[Frontier.normalize url]}).
Proof. intros H. unfold Frontier.add. by rewrite decide_False. Qed.

Lemma queue_add_all_general urls f :
  queue (Frontier.add_all urls f) =
  (queue f ++ first_occurrences
                (filter (λ u, u ∉ seen_urls f) (Frontier.normalize <$> urls)))%list.
Proof.
  revert f. induction urls as [|x urls IH]; intros f; simpl.
  - by rewrite app_nil_r.
  - rewrite IH, filter_cons.
    destruct (decide (Frontier.normalize x ∈ seen_urls f)) as [Hin|Hnin].
    + rewrite add_known by done. rewrite decide_False by naive_solver. done.
    + rewrite add_fresh by done. rewrite decide_True by done. simpl.
      rewrite <- app_assoc. simpl.
      do 2 f_equal. rewrite filter_first_occurrences, list_filter_filter.
      f_equal. apply list_filter_iff. intros y. set_solver.
Qed.

(** X3: after any [add] calls on a fresh frontier the queue holds the first
    occurrence of every normalised URL, in the order of the calls, and
    [size] counts them. *)
Theorem queue_is_first_occurrences (urls : list string) :
  queue (Frontier.add_all urls Frontier.new)
    = first_occurrences (Frontier.normalize <$> urls) ∧
  Frontier.size (Frontier.add_all urls Frontier.new)
    = List.length (first_occurrences (Frontier.normalize <$> urls)).
Proof.
  assert (H : queue (Frontier.add_all urls Frontier.new)
              = first_occurrences (Frontier.normalize <$> urls)).
  { rewrite queue_add_all_general. simpl. f_equal.
    induction (Frontier.normalize <$> urls) as [|u l IH]; [done|].
    rewrite filter_cons, decide_True by set_solver. rewrite IH. done. }
  split; [done|]. unfold Frontier.size. by rewrite H.
Qed.
Lemma apply_ops_keeps ops f returned :
  Frontier.wf f → NoDup returned →
  (∀ u, u ∈ returned → u ∈ seen_urls f ∧ (u ∉ queue f) ∧ Frontier.normalize u = u) →
  let '(f', returned') := apply_ops ops f returned in
  (Frontier.wf f' ∧ NoDup returned' ∧
   (∀ u, u ∈ returned' → u ∈ seen_urls f' ∧ (u ∉ queue f') ∧ Frontier.normalize u = u)).
Proof.
  revert f returned. induction ops as [|[url|] ops IH]; intros f returned Hwf Hnd Hret; simpl.
  - done.
  - apply IH; [by apply wf_add | done |].
    intros u Hu. destruct (Hret u Hu) as (Hs & Hq & Hn). split_and!; [| |done].
    + rewrite seen_add. set_solver.
    + destruct (decide (Frontier.normalize url ∈ seen_urls f)) as [Hin|Hnin].
      * by rewrite add_known.
      * rewrite add_fresh by done. simpl.
        intros [?| ->%list_elem_of_singleton]%elem_of_app; [done|]. by apply Hnin.
  - destruct (Frontier.get f) as [[url f']|] eqn:Hget; [|by apply IH].
    pose proof (wf_get _ _ _ Hwf Hget) as Hwf'.
    unfold Frontier.get in Hget. destruct (queue f) as [|x q] eqn:Hq; [done|].
    injection Hget as -> <-.
    destruct Hwf as [Hqnd Hqseen Hqnorm]. rewrite Hq in Hqnd, Hqseen, Hqnorm.
    apply NoDup_cons in Hqnd as [Hx Hqnd].
    apply IH; [done | |].
    + apply NoDup_app. split_and!; [done | | apply NoDup_singleton].
      intros u Hu ->%list_elem_of_singleton.
      destruct (Hret _ Hu) as (_ & Hout & _). apply Hout. set_solver.
    + simpl. intros u [Hu| ->%list_elem_of_singleton]%elem_of_app.
      * destruct (Hret u Hu) as (Hs & Hout & Hn). split_and!; [done | | done].
        intros Hin. apply Hout. set_solver.
      * split_and!; [apply Hqseen; set_solver | done | apply Hqnorm; set_solver].
Qed.

(** X4: over any sequence of [add] and [get] calls on a fresh frontier, no
    URL is returned by [get] twice, a URL that was returned is not in the
    queue, and adding it again changes nothing. *)
Theorem frontier_returns_each_url_once (ops : list frontier_op) :
  let '(f, returned) := apply_ops ops Frontier.new [] in
  (NoDup returned ∧
   (∀ u, u ∈ returned → (u ∉ queue f) ∧ Frontier.add u f = f)).
Proof.
  pose proof (apply_ops_keeps ops Frontier.new [] wf_new NoDup_nil_2) as H.
  destruct (apply_ops ops Frontier.new []) as [f returned].
  destruct H as (_ & Hnd & Hret); [intros u Hu; inversion Hu|].
  split; [done|]. intros u Hu. destruct (Hret u Hu) as (Hs & Hq & Hn).
  split; [done|]. apply add_known. by rewrite Hn.
Qed.

(** ** The pattern matcher against what a pattern denotes *)

Lemma str_app_cons a (s t : string) : String a s ++ t = String a (s ++ t).
Proof. done. Qed.

Lemma str_app_nil_l (t : string) : "" ++ t = t.
Proof. done. Qed.

Lemma str_app_nil_r (s : string) : s ++ "" = s.
Proof. induction s as [|a s IH]; [done|]. by rewrite str_app_cons, IH. Qed.

Lemma str_app_assoc (s1 s2 s3 : string) : (s1 ++ s2) ++ s3 = s1 ++ (s2 ++ s3).
Proof. induction s1 as [|a s1 IH]; [done|]. by rewrite !str_app_cons, IH. Qed.

Lemma str_app_eq_nil (s1 s2 : string) : s1 ++ s2 = "" → s1 = "" ∧ s2 = "".
Proof. by destruct s1. Qed.

Lemma str_app_eq_cons (s1 s2 : string) a s :
  s1 ++ s2 = String a s →
  (s1 = "" ∧ s2 = String a s) ∨ (∃ s1', s1 = String a s1' ∧ s = s1' ++ s2).
Proof.
  destruct s1 as [|b s1]; [by left|]. rewrite str_app_cons.
  intros [= -> <-]. right. by eexists.
Qed.

Lemma nullable_iff r : Re.nullable r = true ↔ re_matches r "".
Proof.
  split.
  - induction r; simpl; try done.
    + constructor.
    + intros [H1 H2]%andb_true_iff. apply (M_cat _ _ "" ""); auto.
    + intros [H|H]%orb_true_iff; [apply M_alt_l | apply M_alt_r]; auto.
    + constructor.
  - intros H. remember "" as s eqn:Hs. induction H; simpl; try done.
    + apply str_app_eq_nil in Hs as [-> ->]. by rewrite IHre_matches1, IHre_matches2.
    + by rewrite IHre_matches.
    + rewrite (IHre_matches Hs). apply orb_true_r.
Qed.

Lemma matches_void s : ¬ re_matches Re.Void s.
Proof. intros H. inversion H. Qed.

Lemma matches_eps s : re_matches Re.Eps s ↔ s = "".
Proof. split; [by inversion 1 | intros ->; constructor]. Qed.

Lemma matches_cat r1 r2 s :
  re_matches (Re.Cat r1 r2) s ↔
  ∃ s1 s2, s = s1 ++ s2 ∧ re_matches r1 s1 ∧ re_matches r2 s2.
Proof.
  split.
  - inversion 1; subst. by eexists _, _.
  - intros (s1 & s2 & -> & H1 & H2). by constructor.
Qed.

Lemma matches_alt r1 r2 s :
  re_matches (Re.Alt r1 r2) s ↔ re_matches r1 s ∨ re_matches r2 s.
Proof.
  split.
  - inversion 1; subst; auto.
  - intros [H|H]; [by apply M_alt_l | by apply M_alt_r].
Qed.

Lemma cat_iff r1 r2 s : re_matches (Re.cat r1 r2) s ↔ re_matches (Re.Cat r1 r2) s.
Proof.
  assert (Hv1 : ∀ r, re_matches (Re.Cat Re.Void r) s ↔ False).
  { intros r. rewrite matches_cat. split; [|done].
    intros (? & ? & _ & H & _). by apply matches_void in H. }
  assert (Hv2 : ∀ r, re_matches (Re.Cat r Re.Void) s ↔ False).
  { intros r. rewrite matches_cat. split; [|done].
    intros (? & ? & _ & _ & H). by apply matches_void in H. }
  assert (He1 : ∀ r, re_matches (Re.Cat Re.Eps r) s ↔ re_matches r s).
  { intros r. rewrite matches_cat. split.
    - intros (? & ? & -> & ->%matches_eps & H). done.
    - intros H. exists "", s. split_and!; [done | constructor | done]. }
  assert (He2 : ∀ r, re_matches (Re.Cat r Re.Eps) s ↔ re_matches r s).
  { intros r. rewrite matches_cat. split.
    - intros (? & ? & -> & H & ->%matches_eps). by rewrite str_app_nil_r.
    - intros H. exists s, "". split_and!; [by rewrite (str_app_nil_r s) | done | constructor]. }
  destruct r1, r2; simpl; rewrite ?Hv1, ?Hv2, ?He1, ?He2; try done;
    split; try done; intros H; by apply matches_void in H.
Qed.

Lemma alt_iff r1 r2 s : re_matches (Re.alt r1 r2) s ↔ re_matches (Re.Alt r1 r2) s.
Proof.
  rewrite matches_alt.
  destruct r1, r2; simpl; rewrite ?matches_alt; try done;
    split; intros H; auto; destruct H as [H|H]; auto; by apply matches_void in H.
Qed.

Lemma matches_star_cons r a s :
  re_matches (Re.Star r) (String a s) →
  ∃ s1 s2, s = s1 ++ s2 ∧ re_matches r (String a s1) ∧ re_matches (Re.Star r) s2.
Proof.
  intros H. remember (Re.Star r) as r' eqn:Hr. remember (String a s) as t eqn:Ht.
  revert s Ht. induction H; intros s' Ht; try done.
  injection Hr as ->.
  apply str_app_eq_cons in Ht as [[-> ->]|(s1' & -> & ->)].
  - by apply IHre_matches2.
  - by eexists _, _.
Qed.

Lemma deriv_iff a r s : re_matches (Re.deriv a r) s ↔ re_matches r (String a s).
Proof.
  revert s. induction r as [| |p|r1 IH1 r2 IH2|r1 IH1 r2 IH2|r IH]; intros s; simpl.
  - split; intros H; inversion H.
  - split; intros H; inversion H.
  - destruct (p a) eqn:Hp.
    + rewrite matches_eps. split; [intros ->; by constructor | by inversion 1].
    + split; [intros H; inversion H | inversion 1; congruence].
  - assert (Hc : re_matches (Re.cat (Re.deriv a r1) r2) s ↔
                 ∃ s1 s2, s = s1 ++ s2 ∧ re_matches r1 (String a s1) ∧ re_matches r2 s2).
    { rewrite cat_iff, matches_cat. by setoid_rewrite IH1. }
    assert (Hm : re_matches (Re.Cat r1 r2) (String a s) ↔
                 (re_matches r1 "" ∧ re_matches r2 (String a s)) ∨
                 ∃ s1 s2, s = s1 ++ s2 ∧ re_matches r1 (String a s1) ∧ re_matches r2 s2).
    { rewrite matches_cat. split.
      - intros (t1 & t2 & Ht & H1 & H2). symmetry in Ht.
        apply str_app_eq_cons in Ht as [[-> ->]|(s1' & -> & ->)]; [by left|].
        right. by eexists _, _.
      - intros [[H1 H2]|(s1 & s2 & -> & H1 & H2)].
        + by exists "", (String a s).
        + by exists (String a s1), s2. }
    rewrite Hm. destruct (Re.nullable r1) eqn:Hn.
    + rewrite alt_iff, matches_alt, Hc, IH2. apply nullable_iff in Hn. naive_solver.
    + rewrite Hc. split; [by right|]. intros [[H1 _]|H]; [|done].
      apply nullable_iff in H1. congruence.
  - rewrite alt_iff, !matches_alt, IH1, IH2. done.
  - rewrite cat_iff, matches_cat. setoid_rewrite IH. split.
    + intros (s1 & s2 & -> & H1 & H2). by apply (M_star_app r (String a s1) s2).
    + apply matches_star_cons.
Qed.

Lemma fullmatch_iff r s : Re.fullmatch r s = true ↔ re_matches r s.
Proof.
  revert r. induction s as [|a s IH]; intros r; simpl.
  - apply nullable_iff.
  - by rewrite IH, deriv_iff.
Qed.

Lemma matches_star_any s : re_matches (Re.Star Re.any) s.
Proof.
  induction s as [|a s IH]; [constructor|].
  apply (M_star_app Re.any (String a "") s); [by constructor | done].
Qed.

(** [re.search] finds a match exactly when some substring is in the
    language of the pattern. *)
Lemma search_pat_iff r s :
  Re.search (Re.pat r) s = true ↔
  ∃ pre mid post, s = pre ++ mid ++ post ∧ re_matches r mid.
Proof.
  unfold Re.search. simpl. rewrite fullmatch_iff, matches_cat. split.
  - intros (pre & t & -> & _ & (mid & post & -> & Hm & _)%matches_cat).
    by exists pre, mid, post.
  - intros (pre & mid & post & -> & Hm).
    exists pre, (mid ++ post). split_and!; [done | apply matches_star_any |].
    apply matches_cat. exists mid, post. split_and!; [done | done | apply matches_star_any].
Qed.

Lemma matches_lit p s : re_matches (Re.lit p) s ↔ s = p.
Proof.
  revert s. induction p as [|a p IH]; intros s; simpl.
  - apply matches_eps.
  - rewrite matches_cat. split.
    + intros (s1 & s2 & -> & H1 & ->%IH). unfold Re.chr in H1. inversion H1; subst.
      by apply Ascii.eqb_eq in H0 as ->.
    + intros ->. exists (String a ""), p. split_and!; [done | | by apply IH].
      constructor. apply Ascii.eqb_refl.
Qed.

Lemma startswith_iff p s : Py.startswith p s = true ↔ ∃ post, s = p ++ post.
Proof.
  revert s. induction p as [|a p IH]; intros s; simpl.
  - split; [by exists s | done].
  - destruct s as [|b s]; [split; [done | by intros [? ?]]|].
    rewrite andb_true_iff, IH, Ascii.eqb_eq. split.
    + intros [-> [post ->]]. by exists post.
    + intros [post [= -> ->]]. split; [done | by exists post].
Qed.

Lemma contains_iff p s :
  Py.contains p s = true ↔ ∃ pre post, s = pre ++ p ++ post.
Proof.
  induction s as [|b s IH].
  - simpl. rewrite orb_false_r, startswith_iff. split.
    + intros [post H]. by exists "", post.
    + intros (pre & post & H). symmetry in H.
      apply str_app_eq_nil in H as [-> H]. by exists post.
  - change (Py.contains p (String b s))
      with (Py.startswith p (String b s) || Py.contains p s).
    rewrite orb_true_iff, startswith_iff, IH. split.
    + intros [[post H]|(pre & post & ->)]; [by exists "", post|].
      by exists (String b pre), post.
    + intros (pre & post & H). destruct pre as [|c pre]; simpl in H.
      * left. by exists post.
      * injection H as -> ->. right. by exists pre, post.
Qed.

(** A pattern without metacharacters is found exactly where [in] finds it. *)
Lemma search_lit p s : Re.search (Re.pat (Re.lit p)) s = Py.contains p s.
Proof.
  apply eq_true_iff_eq. rewrite search_pat_iff, contains_iff.
  split.
  - intros (pre & mid & post & -> & ->%matches_lit). by exists pre, post.
  - intros (pre & post & ->). exists pre, p, post. split; [done | by apply matches_lit].
Qed.

(** ** More on the classifier *)

Lemma count_indicators_spec indicators h n :
  let k := List.length (List.filter (fun i => Py.contains i h) indicators) in
  ProductIdentifier.count_indicators indicators h n =
  if (k =? 0)%nat then inr n
  else if (2 <=? n + k)%nat then inl tt else inr (n + k)%nat.
Proof.
  revert n. induction indicators as [|i inds IH]; intros n; [done|].
  cbn [ProductIdentifier.count_indicators List.filter].
  destruct (Py.contains i h).
  - cbn [List.length]. destruct n as [|n].
    + rewrite IH. cbn zeta.
      destruct (List.length (List.filter _ inds)) as [|[|k]]; done.
    + replace (2 <=? S (S n))%nat with true by done.
      replace (2 <=? S n + S _)%nat with true; [done|].
      symmetry. apply Nat.leb_le. lia.
  - apply IH.
Qed.

(** X5: the content signal counts the indicator phrases found in the
    lower-cased markup: two phrases suffice; one phrase suffices together
    with a price element or a quantity or size element; and without any
    phrase the signal is false whatever the document holds. *)
Theorem content_signal_by_hits (html : string) (soup : document) :
  ProductIdentifier._check_page_content html soup =
  (2 <=? indicator_hits html)%nat ||
  ((1 <=? indicator_hits html)%nat &&
   (Py.nonempty (price_elements soup) || Py.nonempty (qty_elements soup))).
Proof.
  unfold ProductIdentifier._check_page_content.
  rewrite count_indicators_spec. cbn zeta. rewrite Nat.add_0_l.
  fold (price_elements soup) (qty_elements soup). fold (indicator_hits html).
  destruct (indicator_hits html) as [|[|k]]; cbn -[price_elements qty_elements].
  - by rewrite !andb_false_r.
  - rewrite !andb_true_r. by destruct (Py.nonempty (price_elements soup)).
  - done.
Qed.

Lemma search_product_url_patterns url :
  existsb (fun pattern => Re.search pattern url) ProductIdentifier.product_url_patterns
  = existsb (fun p => Py.contains p url) product_path_fragments.
Proof.
  unfold ProductIdentifier.product_url_patterns. fold product_path_fragments.
  induction product_path_fragments as [|p ps IH]; [done|].
  simpl. by rewrite search_lit, IH.
Qed.

(** X6: a URL that holds one of the seven product path fragments is
    classified as a product page whatever the page holds, also where
    [urlparse] would reject the URL. *)
Theorem product_path_fragment_suffices (url html p : string) (soup : document) :
  p ∈ product_path_fragments → Py.contains p url = true →
  ProductIdentifier.is_product_page url html soup = Some true.
Proof.
  intros Hp Hc. unfold ProductIdentifier.is_product_page, ProductIdentifier._check_url_pattern.
  rewrite search_product_url_patterns.
  assert (existsb (fun p => Py.contains p url) product_path_fragments = true) as ->; [|done].
  apply existsb_exists. exists p. by rewrite <- list_elem_of_In.
Qed.

Lemma product_path_fragment_suffices_witness :
  "/item/" ∈ product_path_fragments ∧ Py.contains "/item/" "http://[/item/1" = true ∧
  Urllib.urlparse "http://[/item/1" "" = None ∧
  ProductIdentifier.is_product_page "http://[/item/1" empty_html empty_soup = Some true.
Proof.
  split_and!; [set_solver | reflexivity | reflexivity |].
  apply (product_path_fragment_suffices "http://[/item/1" empty_html "/item/" empty_soup);
    [set_solver | reflexivity].
Defined.

(** X7: on an empty body with an empty document the content and metadata
    signals are false without an error, so the classification is the one of
    the URL check. *)
Theorem empty_page_is_classified_by_url (url : string) :
  ProductIdentifier.is_product_page url "" [] = ProductIdentifier._check_url_pattern url.
Proof.
  unfold ProductIdentifier.is_product_page.
  by destruct (ProductIdentifier._check_url_pattern url) as [[|]|].
Qed.

Lemma search_product_meta v :
  Re.search ProductIdentifier.product_meta v
  = Py.contains "product:" v || Py.contains "og:price" v.
Proof.
  apply eq_true_iff_eq. unfold ProductIdentifier.product_meta.
  rewrite search_pat_iff, orb_true_iff, !contains_iff. split.
  - intros (pre & mid & post & -> & [->%matches_lit| ->%matches_lit]%matches_alt);
      [left | right]; by exists pre, post.
  - intros [(pre & post & ->)|(pre & post & ->)].
    + exists pre, "product:", post. split; [done|]. apply M_alt_l. by apply matches_lit.
    + exists pre, "og:price", post. split; [done|]. apply M_alt_r. by apply matches_lit.
Qed.

Lemma is_product_page_or url html soup u :
  ProductIdentifier._check_url_pattern url = Some u →
  ProductIdentifier.is_product_page url html soup =
    Some (u || ProductIdentifier._check_page_content html soup
            || ProductIdentifier._check_metadata soup).
Proof.
  intros Hu. unfold ProductIdentifier.is_product_page. rewrite Hu.
  destruct u; [done|]. simpl.
  destruct (ProductIdentifier._check_page_content html soup); [done|].
  by destruct (ProductIdentifier._check_metadata soup).
Qed.

(** X8: a [meta] tag anywhere in the document whose [property] holds
    [product:] or [og:price] makes the metadata signal true, and with it the
    classification of every URL on which the URL check returns. *)
Theorem product_meta_tag_suffices (url html v : string) (soup : document) (tag : node) :
  tag ∈ Soup.doc_descendants soup →
  Soup.is_tag ["meta"] tag = true →
  Soup.get "property" tag = Some v →
  Py.contains "product:" v = true ∨ Py.contains "og:price" v = true →
  is_Some (ProductIdentifier._check_url_pattern url) →
  ProductIdentifier._check_metadata soup = true ∧
  ProductIdentifier.is_product_page url html soup = Some true.
Proof.
  intros Hin Htag Hget Hv [u Hu].
  assert (Hm : ProductIdentifier._check_metadata soup = true).
  { unfold ProductIdentifier._check_metadata.
    match goal with |- (if ?b then true else _) = true => destruct b; [done|] end.
    match goal with |- (if ?b then true else _) = true => destruct b; [done|] end.
    assert (Hf : In tag (Soup.find_all ["meta"]
                  (Soup.attr_is "property" (Re.search ProductIdentifier.product_meta)) soup)).
    { unfold Soup.find_all, Soup.select. apply filter_In. split.
      - by apply list_elem_of_In.
      - rewrite Htag. unfold Soup.attr_is. rewrite Hget, search_product_meta.
        simpl. apply orb_true_iff. destruct Hv; auto. }
    by destruct (Soup.find_all _ _ soup). }
  split; [done|]. rewrite (is_product_page_or _ _ _ _ Hu), Hm. by rewrite orb_true_r.
Qed.

Lemma product_meta_tag_suffices_witness :
  ProductIdentifier._check_url_pattern plain_url = Some false ∧
  ProductIdentifier._check_page_content price_meta_html price_meta_soup = false ∧
  ProductIdentifier.is_product_page plain_url price_meta_html price_meta_soup = Some true.
Proof.
  split_and!; [by vm_compute | by vm_compute |].
  apply (product_meta_tag_suffices plain_url price_meta_html "og:price:amount" price_meta_soup
           (Tag "meta" {[ "property" := "og:price:amount"; "content" := "499" ]} [])).
  - apply list_elem_of_In. vm_compute. auto 10.
  - reflexivity.
  - by vm_compute.
  - right. reflexivity.
  - exists false. by vm_compute.
Defined.

(** ** More on the site strategies *)

Lemma base_should_crawl_true d link :
  Base.should_crawl d link = Some true → on_site d link.
Proof.
  unfold Base.should_crawl.
  destruct (existsb (λ ext, Py.endswith ext link) Base.skipped_extensions) eqn:He.
  { destruct (Urllib.urlparse link "") as [pu|]; [|done].
    destruct (Urllib.urlparse d "") as [pd|]; [|done]. cbn.
    destruct (negb _); [done|]. by destruct (Py.truthy _). }
  destruct (Urllib.urlparse link "") as [pu|] eqn:Hpu; [|done].
  destruct (Urllib.urlparse d "") as [pd|] eqn:Hpd; [|done]. cbn.
  destruct (String.eqb_spec (Urllib.netloc pu) (Urllib.netloc pd)) as [Hn|]; cbn; [|done].
  destruct (Urllib.fragment pu) eqn:Hf; cbn; [|done]. intros _.
  exists pu, pd. split_and!; try done.
  intros ext Hext. destruct (Py.endswith ext link) eqn:Hend; [|done].
  assert (existsb (λ e, Py.endswith e link) Base.skipped_extensions = true); [|congruence].
  apply existsb_exists. exists ext. by rewrite <- list_elem_of_In.
Qed.

Lemma should_crawl_of_true_base k d url :
  should_crawl_of k d url = Some true → Base.should_crawl d url = Some true.
Proof.
  destruct k; simpl; try done.
  - unfold Tatacliq.should_crawl.
    destruct (Base.should_crawl d url) as [[|]|]; simpl; try done.
  - unfold Nykaa.should_crawl. destruct (Py.truthy url); [|done].
    destruct (Base.should_crawl d url) as [[|]|]; simpl; try done.
  - unfold Westside.should_crawl.
    destruct (Base.should_crawl d url) as [[|]|]; simpl; try done.
Qed.

Lemma should_crawl_of_on_site k d link :
  should_crawl_of k d link = Some true → on_site d link.
Proof. intros H. by eapply base_should_crawl_true, should_crawl_of_true_base. Qed.

(** X9: the three [should_crawl] overrides only restrict the generic rule:
    on every URL they admit nothing that it refuses, refuse what it
    refuses, and raise where it raises (for Nykaa, on a non-empty URL). *)
Theorem overrides_only_restrict_admission (d url : string) :
  (∀ k, should_crawl_of k d url = Some true → Base.should_crawl d url = Some true) ∧
  (Base.should_crawl d url = Some false → ∀ k, should_crawl_of k d url = Some false) ∧
  (Base.should_crawl d url = None → url ≠ "" → ∀ k, should_crawl_of k d url = None).
Proof.
  split_and!.
  - intros k. apply should_crawl_of_true_base.
  - intros H k. destruct k; simpl; try done.
    + unfold Tatacliq.should_crawl. by rewrite H.
    + unfold Nykaa.should_crawl. rewrite H. by destruct (Py.truthy url).
    + unfold Westside.should_crawl. by rewrite H.
  - intros H Hne k. destruct k; simpl; try done.
    + unfold Tatacliq.should_crawl. by rewrite H.
    + unfold Nykaa.should_crawl. rewrite H. by destruct url.
    + unfold Westside.should_crawl. by rewrite H.
Qed.

Lemma overrides_only_restrict_admission_witness :
  should_crawl_of WestsideSite "https://www.westside.com/" "https://www.westside.com/a"
    = Some true ∧
  Base.should_crawl "https://www.westside.com/" "https://www.westside.com/a" = Some true.
Proof.
  split; [by vm_compute|].
  apply (proj1 (overrides_only_restrict_admission
                  "https://www.westside.com/" "https://www.westside.com/a") WestsideSite).
  by vm_compute.
Defined.

(** X10: the three [extract_links] overrides only add to the generic
    extraction: where it raises they raise, and where it returns, the
    Westside and TataCliq overrides return its links followed by their own,
    and so does the Nykaa override whenever it returns. *)
Theorem overrides_only_extend_extraction (d base_url : string) (soup : document) :
  (Base.extract_links soup base_url = None →
   Westside.extract_links d soup base_url = None ∧
   Tatacliq.extract_links d soup base_url = None ∧
   Nykaa.extract_links soup base_url = None) ∧
  (∀ links, Base.extract_links soup base_url = Some links →
     (∃ more, Westside.extract_links d soup base_url = Some (links ++ more)%list) ∧
     (∃ more, Tatacliq.extract_links d soup base_url = Some (links ++ more)%list) ∧
     (∀ all, Nykaa.extract_links soup base_url = Some all →
             ∃ more, all = ((PyStr <$> links) ++ more)%list)).
Proof.
  unfold Westside.extract_links, Tatacliq.extract_links, Nykaa.extract_links.
  split.
  - by intros ->.
  - intros links ->. cbn. split_and!; [by eexists | by eexists |].
    intros all H. destruct (Nykaa.elements_links _ _) as [more|]; [|done].
    injection H as <-. by eexists.
Qed.

Lemma overrides_only_extend_extraction_witness :
  Base.extract_links westside_grid_soup "https://www.westside.com/sale"
    = Some ["https://www.westside.com/a"; "https://www.westside.com/sale"] ∧
  ∃ more, Westside.extract_links "https://www.westside.com/" westside_grid_soup
            "https://www.westside.com/sale"
          = Some (["https://www.westside.com/a"; "https://www.westside.com/sale"] ++ more)%list.
Proof.
  split; [by vm_compute|].
  apply (proj2 (overrides_only_extend_extraction "https://www.westside.com/"
                  "https://www.westside.com/sale" westside_grid_soup)).
  by vm_compute.
Defined.

Lemma enqueue_links_admitted should links f :
  ∃ urls, fst (enqueue_links should links f) = Frontier.add_all urls f ∧
          ∀ u, u ∈ urls → should u = Some true.
Proof.
  revert f. induction links as [|l links IH]; intros f; simpl.
  - exists []. split; [done | intros u Hu; inversion Hu].
  - destruct (should l) as [[|]|] eqn:Hl; [| apply IH |].
    + destruct (IH (Frontier.add l f)) as (urls & Hurls & Hadm).
      exists (l :: urls). split; [by rewrite Hurls|].
      intros u [->|Hu]%elem_of_cons; [done | by apply Hadm].
    + exists []. split; [done | intros u Hu; inversion Hu].
Qed.

Lemma nykaa_enqueue_links_admitted d links f :
  ∃ urls, fst (Nykaa.enqueue_links d links f) = Frontier.add_all urls f ∧
          ∀ u, u ∈ urls → Nykaa.should_crawl d (PyStr u) = Some true.
Proof.
  revert f. induction links as [|l links IH]; intros f; simpl.
  - exists []. split; [done | intros u Hu; inversion Hu].
  - destruct (Nykaa.should_crawl d l) as [[|]|] eqn:Hl; [| apply IH |].
    + destruct l as [|x]; [exists []; split; [done | intros u Hu; inversion Hu]|].
      destruct (IH (Frontier.add x f)) as (urls & Hurls & Hadm).
      exists (x :: urls). split; [by rewrite Hurls|].
      intros u [->|Hu]%elem_of_cons; [done | by apply Hadm].
    + exists []. split; [done | intros u Hu; inversion Hu].
Qed.

Lemma adds_admitted_nothing k c c' :
  frontier c' = frontier c → adds_admitted k c c'.
Proof. intros H. exists []. split; [done | intros u Hu; inversion Hu]. Qed.

Lemma base_try_admits k extract c url r :
  adds_admitted k c
    (fst (Base.process_url_try extract (should_crawl_of k (domain c)) c url r)).
Proof.
  unfold Base.process_url_try.
  destruct r as [|status [[html soup]|]]; simpl; [by apply adds_admitted_nothing | |
    destruct (negb _); by apply adds_admitted_nothing].
  destruct (negb _); simpl; [by apply adds_admitted_nothing|].
  destruct (ProductIdentifier.is_product_page url html soup) as [b|];
    simpl; [|by apply adds_admitted_nothing].
  set (c1 := if b then add_product url c else c).
  assert (Hf : frontier c1 = frontier c) by (subst c1; by destruct b).
  destruct (extract soup url) as [links|]; simpl; [|by apply adds_admitted_nothing].
  destruct (enqueue_links_admitted (should_crawl_of k (domain c)) links (frontier c1))
    as (urls & Hurls & Hadm).
  destruct (enqueue_links _ links (frontier c1)) as [f how]. simpl in *.
  exists urls. by rewrite Hurls, Hf.
Qed.

Lemma process_url_admits k c url r : adds_admitted k c (fst (process_url k c url r)).
Proof.
  destruct k; simpl.
  - apply (base_try_admits Generic).
  - unfold Virgio.process_url. simpl.
    destruct (base_try_admits VirgioSite Base.extract_links c url r) as (urls & Hf & Ha).
    exists urls. split; [|done]. by destruct (_ && _).
  - unfold Tatacliq.process_url_try.
    destruct r as [|status [[html soup]|]]; simpl; [by apply adds_admitted_nothing | |
      destruct (negb _); by apply adds_admitted_nothing].
    destruct (negb _); simpl; [by apply adds_admitted_nothing|].
    set (c1 := add_if_any_pattern _ url c).
    set (c2 := if Tatacliq._check_product_metadata soup then add_product url c1 else c1).
    set (c3 := if Tatacliq._check_product_scripts html then add_product url c2 else c2).
    assert (H3 : frontier c3 = frontier c ∧ domain c3 = domain c).
    { subst c3 c2 c1. unfold add_if_any_pattern.
      by destruct (existsb _ _), (Tatacliq._check_product_metadata soup),
                  (Tatacliq._check_product_scripts html). }
    destruct H3 as [Hf Hd].
    destruct (Tatacliq.extract_links _ soup url) as [links|]; simpl;
      [|by apply adds_admitted_nothing].
    destruct (enqueue_links_admitted (Tatacliq.should_crawl (domain c3)) links (frontier c3))
      as (urls & Hurls & Hadm).
    destruct (enqueue_links _ links (frontier c3)) as [f how]. simpl in *.
    exists urls. rewrite Hurls, Hf. split; [done|]. intros u Hu. simpl. rewrite <- Hd. auto.
  - unfold Nykaa.process_url_try.
    destruct r as [|status [[html soup]|]]; simpl; [by apply adds_admitted_nothing | |
      destruct (negb _); by apply adds_admitted_nothing].
    destruct (negb _); simpl; [by apply adds_admitted_nothing|].
    set (c1 := add_if_any_pattern _ url c).
    set (c2 := if Nykaa._is_product_page soup html then add_product url c1 else c1).
    assert (H2 : frontier c2 = frontier c ∧ domain c2 = domain c).
    { subst c2 c1. unfold add_if_any_pattern.
      by destruct (existsb _ _), (Nykaa._is_product_page soup html). }
    destruct H2 as [Hf Hd].
    destruct (Nykaa.extract_links soup url) as [links|]; simpl;
      [|by apply adds_admitted_nothing].
    destruct (nykaa_enqueue_links_admitted (domain c2) links (frontier c2))
      as (urls & Hurls & Hadm).
    destruct (Nykaa.enqueue_links _ links (frontier c2)) as [f how]. simpl in *.
    exists urls. rewrite Hurls, Hf. split; [done|]. intros u Hu. simpl. rewrite <- Hd. auto.
  - unfold Westside.process_url. simpl.
    destruct (base_try_admits WestsideSite (Westside.extract_links (domain c)) c url r)
      as (urls & Hf & Ha).
    exists urls. split; [|done]. unfold add_if_any_pattern. by destruct (existsb _ _).
Qed.

Lemma queue_add_all_from urls f u :
  u ∈ queue (Frontier.add_all urls f) →
  u ∈ queue f ∨ ∃ link, link ∈ urls ∧ u = Frontier.normalize link.
Proof.
  revert f. induction urls as [|x urls IH]; intros f Hu; simpl in *; [by left|].
  destruct (IH _ Hu) as [Hq|(link & Hl & ->)].
  - unfold Frontier.add in Hq. destruct (decide _); [by left|]. simpl in Hq.
    apply elem_of_app in Hq as [?| ->%list_elem_of_singleton]; [by left|].
    right. exists x. split; [set_solver | done].
  - right. exists link. split; [set_solver | done].
Qed.

(** X11: whatever the class of the crawler and the answer of the transport,
    a URL that [process_url] puts into the queue is the normal form of a
    link that the [should_crawl] of the class admitted, hence of a link on
    the host of the crawl root, without fragment and without one of the
    skipped extensions. *)
Theorem only_admitted_links_are_enqueued
    (k : site) (c : Crawler) (url : string) (r : fetch_result) (u : string) :
  u ∈ queue (frontier (fst (process_url k c url r))) →
  u ∈ queue (frontier c) ∨
  ∃ link, u = Frontier.normalize link ∧
          should_crawl_of k (domain c) link = Some true ∧
          on_site (domain c) link.
Proof.
  intros Hu. destruct (process_url_admits k c url r) as (urls & Hf & Hadm).
  rewrite Hf in Hu. apply queue_add_all_from in Hu as [?|(link & Hl & ->)]; [by left|].
  right. exists link. split_and!; [done | by apply Hadm |].
  eapply should_crawl_of_on_site. by apply Hadm.
Qed.

Lemma only_admitted_links_are_enqueued_witness :
  let c := fst (process_url Generic shop_crawler "https://shop.example"
                  (Response 200 (Some (home_html, home_soup)))) in
  "https://shop.example/p/123" ∈ queue (frontier c) ∧
  ("https://shop.example/p/123" ∈ queue (frontier shop_crawler) ∨
   ∃ link, "https://shop.example/p/123" = Frontier.normalize link ∧
           should_crawl_of Generic (domain shop_crawler) link = Some true ∧
           on_site (domain shop_crawler) link).
Proof.
  assert (H : "https://shop.example/p/123" ∈
              queue (frontier (fst (process_url Generic shop_crawler "https://shop.example"
                                      (Response 200 (Some (home_html, home_soup))))))).
  { vm_compute. set_solver. }
  split; [exact H|].
  exact (only_admitted_links_are_enqueued Generic shop_crawler "https://shop.example"
           (Response 200 (Some (home_html, home_soup))) "https://shop.example/p/123" H).
Defined.

Lemma if_product_upper (b : bool) url c :
  product_urls (if b then add_product url c else c) ⊆ product_urls c ∪ {[url]}.
Proof. destruct b; simpl; set_solver. Qed.

Lemma base_try_products extract should c url r :
  product_urls (fst (Base.process_url_try extract should c url r))
    ⊆ product_urls c ∪ {[url]}.
Proof.
  unfold Base.process_url_try.
  destruct r as [|status [[html soup]|]]; simpl; [set_solver | |
    destruct (negb _); set_solver].
  destruct (negb _); simpl; [set_solver|].
  destruct (ProductIdentifier.is_product_page url html soup) as [b|]; simpl; [|set_solver].
  pose proof (if_product_upper b url c) as Hb.
  destruct (extract soup url) as [links|]; simpl; [|done].
  by destruct (enqueue_links _ _ _).
Qed.

Lemma process_url_products k c url r :
  product_urls (fst (process_url k c url r)) ⊆ product_urls c ∪ {[url]}.
Proof.
  destruct k; simpl.
  - apply base_try_products.
  - unfold Virgio.process_url. simpl.
    pose proof (base_try_products Base.extract_links (Base.should_crawl (domain c)) c url r).
    destruct (_ && _); simpl; set_solver.
  - unfold Tatacliq.process_url_try.
    destruct r as [|status [[html soup]|]]; simpl; [set_solver | |
      destruct (negb _); set_solver].
    destruct (negb _); simpl; [set_solver|].
    set (c1 := add_if_any_pattern _ url c).
    set (c2 := if Tatacliq._check_product_metadata soup then add_product url c1 else c1).
    set (c3 := if Tatacliq._check_product_scripts html then add_product url c2 else c2).
    assert (H3 : product_urls c3 ⊆ product_urls c ∪ {[url]}).
    { pose proof (if_product_upper (Tatacliq._check_product_scripts html) url c2).
      pose proof (if_product_upper (Tatacliq._check_product_metadata soup) url c1).
      pose proof (if_product_upper
                    (existsb (λ p, Re.search p url) Tatacliq.tatacliq_product_patterns) url c).
      subst c3 c2 c1. unfold add_if_any_pattern. set_solver. }
    destruct (Tatacliq.extract_links _ soup url) as [links|]; simpl; [|done].
    by destruct (enqueue_links _ _ _).
  - unfold Nykaa.process_url_try.
    destruct r as [|status [[html soup]|]]; simpl; [set_solver | |
      destruct (negb _); set_solver].
    destruct (negb _); simpl; [set_solver|].
    set (c1 := add_if_any_pattern _ url c).
    set (c2 := if Nykaa._is_product_page soup html then add_product url c1 else c1).
    assert (H2 : product_urls c2 ⊆ product_urls c ∪ {[url]}).
    { pose proof (if_product_upper (Nykaa._is_product_page soup html) url c1).
      pose proof (if_product_upper
                    (existsb (λ p, Re.search p url) Nykaa.nykaa_product_patterns) url c).
      subst c2 c1. unfold add_if_any_pattern. set_solver. }
    destruct (Nykaa.extract_links soup url) as [links|]; simpl; [|done].
    by destruct (Nykaa.enqueue_links _ _ _).
  - unfold Westside.process_url. simpl.
    pose proof (base_try_products (Westside.extract_links (domain c))
                  (Westside.should_crawl (domain c)) c url r).
    unfold add_if_any_pattern. destruct (existsb _ _); simpl; set_solver.
Qed.

(** X12: whatever its class and whatever the transport answers,
    [process_url] keeps every product URL recorded before, records no URL
    but the one it was called with, and leaves [visited_urls], the crawl
    root and the budget as they were. *)
Theorem process_url_records_only_its_url
    (k : site) (c : Crawler) (url : string) (r : fetch_result) :
  let c' := fst (process_url k c url r) in
  product_urls c ⊆ product_urls c' ∧
  product_urls c' ⊆ product_urls c ∪ {[url]} ∧
  visited_urls c' = visited_urls c ∧
  domain c' = domain c ∧ max_urls c' = max_urls c ∧ concurrency c' = concurrency c.
Proof.
  destruct (extends_process_url k c url r) as [Hd Hm Hc Hv Hp _].
  split_and!; try done. apply process_url_products.
Qed.

(** A run keeps what holds at the start and is kept by every step made
    under the invariant. *)
Lemma run_keeps (P : Engine.state → Prop) k s schedule :
  Engine.inv s → P s →
  (∀ s' a, Engine.inv s' → P s' → P (Engine.step k s' a)) →
  P (Engine.run k s schedule).
Proof.
  intros Hinv HP Hstep. revert s Hinv HP.
  induction schedule as [|a schedule IH]; intros s Hinv HP; simpl; [done|].
  apply IH; [by apply inv_step | by apply Hstep].
Qed.

(** ** More on the run *)

Lemma sum_weight_insert ws i w p :
  ws !! i = Some w →
  sum_list (weight <$> <[i:=p]> ws) + weight w = sum_list (weight <$> ws) + weight p.
Proof.
  revert i. induction ws as [|x ws IH]; intros [|i] Hi; try done.
  - simpl in *. injection Hi as ->. lia.
  - specialize (IH i Hi). simpl. unfold fmap in IH. lia.
Qed.

Lemma step_idle k s i r :
  match Engine.workers s !! i with Some w => live w = false | None => True end →
  Engine.step k s (i, r) = s.
Proof.
  unfold Engine.step. by destruct (Engine.workers s !! i) as [[]|].
Qed.

(** A step of a worker that can move is recorded in the trace and lowers the
    potential. *)
Lemma step_live k s i r w :
  Engine.inv s → Engine.workers s !! i = Some w → live w = true →
  List.length (Engine.trace (Engine.step k s (i, r))) = S (List.length (Engine.trace s)) ∧
  potential (Engine.step k s (i, r)) < potential s.
Proof.
  intros Hinv Hi Hlive. destruct s as [c ws t]. unfold Engine.step, potential. simpl in *.
  rewrite Hi. destruct w as [|url| | |]; try done.
  - unfold Engine.loop_head.
    destruct (Frontier.is_empty (frontier c)) eqn:Hempty.
    { simpl. rewrite length_app. simpl. split; [lia|].
      pose proof (sum_weight_insert ws i _ Engine.Exited Hi). simpl in *. lia. }
    destruct (max_urls c <=? _)%Z eqn:Hmax.
    { simpl. rewrite length_app. simpl. split; [lia|].
      pose proof (sum_weight_insert ws i _ Engine.Exited Hi). simpl in *. lia. }
    destruct (Frontier.get (frontier c)) as [[url f]|] eqn:Hget.
    2:{ unfold Frontier.get, Frontier.is_empty in *. by destruct (queue (frontier c)). }
    assert (Hnew : url ∉ visited_urls c).
    { destruct Hinv as [_ _ Hfresh _ _ _ _ _]. simpl in Hfresh. apply Hfresh.
      unfold Frontier.get in Hget. destruct (queue (frontier c)); [done|].
      injection Hget as -> _. set_solver. }
    simpl. destruct (decide (url ∈ visited_urls c)) as [|_]; [done|].
    simpl. rewrite length_app. simpl. split; [lia|].
    rewrite size_union, size_singleton by set_solver.
    pose proof (sum_weight_insert ws i _ (Engine.InProcess url) Hi). simpl in *.
    apply Z.leb_gt in Hmax. lia.
  - unfold Engine.finish.
    pose proof (process_url_returns k c url r) as Hret.
    pose proof (extends_process_url k c url r) as [_ Hm _ Hv _ _].
    destruct (process_url k c url r) as [c' how]. simpl in *. subst how.
    rewrite length_app. simpl. split; [lia|]. rewrite Hm, Hv.
    pose proof (sum_weight_insert ws i _ Engine.Sleeping Hi). simpl in *. lia.
  - simpl. rewrite length_app. simpl. split; [lia|].
    pose proof (sum_weight_insert ws i _ Engine.AtLoop Hi). simpl in *. lia.
Qed.

Lemma sum_weight_replicate n : sum_list (weight <$> replicate n Engine.AtLoop) = n.
Proof. induction n as [|n IH]; [done|]. simpl. f_equal. exact IH. Qed.

Lemma potential_start d m n :
  potential (Engine.start d m n) = 3 * Z.to_nat m + Z.to_nat n.
Proof.
  unfold potential.
  change (Engine.workers (Engine.start d m n)) with (replicate (Z.to_nat n) Engine.AtLoop).
  change (visited_urls (Engine.crawler (Engine.start d m n))) with (∅ : gset string).
  change (max_urls (Engine.crawler (Engine.start d m n))) with m.
  rewrite sum_weight_replicate, size_empty. lia.
Qed.

(** X13: every run is finite: whatever the class, the schedule and the
    answers, the workers make at most [3 * max_urls + concurrency] steps in
    all (negative values counting as 0). *)
Theorem run_length_is_bounded
    (k : site) (d : string) (m n : Z) (schedule : list (nat * fetch_result)) :
  (List.length (Engine.trace (Engine.run k (Engine.start d m n) schedule))
   ≤ 3 * Z.to_nat m + Z.to_nat n)%nat.
Proof.
  assert (H : let s := Engine.run k (Engine.start d m n) schedule in
              (List.length (Engine.trace s) + potential s
               ≤ 3 * Z.to_nat m + Z.to_nat n)%nat);
    [|simpl in H; lia].
  apply (run_keeps (λ s, (List.length (Engine.trace s) + potential s
                          ≤ 3 * Z.to_nat m + Z.to_nat n)%nat)).
  - apply inv_start.
  - rewrite potential_start. simpl. lia.
  - intros s [i r] Hinv HP.
    destruct (Engine.workers s !! i) as [w|] eqn:Hi.
    + destruct (live w) eqn:Hw.
      * destruct (step_live k s i r w Hinv Hi Hw) as [Ht Hp]. lia.
      * rewrite step_idle; [done | by rewrite Hi].
    + rewrite step_idle; [done | by rewrite Hi].
Qed.

(** What a step under the invariant does to the crawler and the workers. *)
Lemma step_spec k s i r :
  Engine.inv s →
  let s' := Engine.step k s (i, r) in
  s' = s ∨
  (∃ p, Engine.crawler s' = Engine.crawler s ∧
        Engine.workers s' = <[i:=p]> (Engine.workers s) ∧
        (p = Engine.Exited ∨ p = Engine.AtLoop)) ∨
  (∃ url f, Frontier.get (frontier (Engine.crawler s)) = Some (url, f) ∧
            (url ∉ visited_urls (Engine.crawler s)) ∧
            (Z.of_nat (size (visited_urls (Engine.crawler s)))
             < max_urls (Engine.crawler s))%Z ∧
            Engine.crawler s' = add_visited url (set_frontier f (Engine.crawler s)) ∧
            Engine.workers s' = <[i:=Engine.InProcess url]> (Engine.workers s)) ∨
  (∃ url, Engine.workers s !! i = Some (Engine.InProcess url) ∧
          Engine.crawler s' = fst (process_url k (Engine.crawler s) url r) ∧
          Engine.workers s' = <[i:=Engine.Sleeping]> (Engine.workers s)).
Proof.
  intros Hinv. destruct s as [c ws t]. unfold Engine.step. simpl.
  destruct (ws !! i) as [[|url| | |]|] eqn:Hi; try by left.
  - unfold Engine.loop_head.
    destruct (Frontier.is_empty (frontier c)) eqn:Hempty.
    { right; left. exists Engine.Exited. simpl. auto. }
    destruct (max_urls c <=? _)%Z eqn:Hmax.
    { right; left. exists Engine.Exited. simpl. auto. }
    destruct (Frontier.get (frontier c)) as [[url f]|] eqn:Hget.
    2:{ unfold Frontier.get, Frontier.is_empty in *. by destruct (queue (frontier c)). }
    assert (Hnew : url ∉ visited_urls c).
    { destruct Hinv as [_ _ Hfresh _ _ _ _ _]. simpl in Hfresh. apply Hfresh.
      unfold Frontier.get in Hget. destruct (queue (frontier c)); [done|].
      injection Hget as -> _. set_solver. }
    simpl. destruct (decide (url ∈ visited_urls c)) as [|_]; [done|].
    right; right; left. exists url, f. simpl. apply Z.leb_gt in Hmax. auto.
  - right; right; right. exists url. unfold Engine.finish.
    pose proof (process_url_returns k c url r) as Hret.
    destruct (process_url k c url r) as [c' how]. simpl in *. by subst how.
  - right; left. exists Engine.AtLoop. simpl. auto.
Qed.

Lemma run_products_budget k d m n schedule :
  let s := Engine.run k (Engine.start d m n) schedule in
  (product_urls (Engine.crawler s) ⊆ visited_urls (Engine.crawler s) ∧
   ∀ i url, Engine.workers s !! i = Some (Engine.InProcess url) →
            url ∈ visited_urls (Engine.crawler s)) ∧
  (max_urls (Engine.crawler s) = m ∧
   (size (visited_urls (Engine.crawler s)) ≤ Z.to_nat m)%nat).
Proof.
  apply (run_keeps (λ s,
    (product_urls (Engine.crawler s) ⊆ visited_urls (Engine.crawler s) ∧
     ∀ i url, Engine.workers s !! i = Some (Engine.InProcess url) →
              url ∈ visited_urls (Engine.crawler s)) ∧
    (max_urls (Engine.crawler s) = m ∧
     (size (visited_urls (Engine.crawler s)) ≤ Z.to_nat m)%nat))).
  - apply inv_start.
  - split_and!; [done | | done |].
    + simpl. by intros i url [? _]%lookup_replicate.
    + change (visited_urls (Engine.crawler (Engine.start d m n))) with (∅ : gset string).
      rewrite size_empty. lia.
  - intros s [i r] Hinv [[Hsub Hw] [Hm Hb]].
    destruct (step_spec k s i r Hinv) as
      [->|[(p & Hc & Hws & Hp)|[(url & f & Hget & Hnew & Hlt & Hc & Hws)
                                |(url & Hi & Hc & Hws)]]];
      [done | ..]; rewrite Hc, Hws.
    + split_and!; try done. intros j url [(_ & Hpu & _)|[_ ?]]%list_lookup_insert_Some;
        [destruct Hp; congruence | by eapply Hw].
    + simpl. split_and!; try done.
      * set_solver.
      * intros j u [(_ & [= ->] & _)|[_ ?]]%list_lookup_insert_Some; [set_solver|].
        apply elem_of_union. left. by eapply Hw.
      * rewrite size_union, size_singleton by set_solver. lia.
    + destruct (extends_process_url k (Engine.crawler s) url r) as [_ Hm' _ Hv _ _].
      rewrite Hv, Hm'. split_and!; try done.
      * pose proof (process_url_products k (Engine.crawler s) url r).
        specialize (Hw i url Hi). set_solver.
      * intros j u [(_ & ? & _)|[_ ?]]%list_lookup_insert_Some; [done | by eapply Hw].
Qed.

(** X14: in every run every product URL recorded is a URL that was
    fetched, and there are at most [max_urls] of them (none when [max_urls]
    is not positive). *)
Theorem products_were_fetched
    (k : site) (d : string) (m n : Z) (schedule : list (nat * fetch_result)) :
  let s := Engine.run k (Engine.start d m n) schedule in
  product_urls (Engine.crawler s) ⊆ visited_urls (Engine.crawler s) ∧
  (size (product_urls (Engine.crawler s)) ≤ size (visited_urls (Engine.crawler s)))%nat ∧
  (size (visited_urls (Engine.crawler s)) ≤ Z.to_nat m)%nat.
Proof.
  destruct (run_products_budget k d m n schedule) as [[Hsub _] [_ Hb]].
  split_and!; [done | by apply subseteq_size | done].
Qed.

(** X15: in every run every URL that is fetched is the normal form of the
    crawl root or of a link on the host of the crawl root, without fragment
    and without one of the skipped extensions: the crawl does not leave the
    site. *)
Theorem crawl_stays_on_site
    (k : site) (d : string) (m n : Z) (schedule : list (nat * fetch_result)) (u : string) :
  u ∈ Engine.dispatched (Engine.trace (Engine.run k (Engine.start d m n) schedule)) →
  u = Frontier.normalize d ∨ ∃ link, u = Frontier.normalize link ∧ on_site d link.
Proof.
  intros Hu.
  assert (H : let s := Engine.run k (Engine.start d m n) schedule in
    domain (Engine.crawler s) = d ∧
    ∀ v, v ∈ seen_urls (frontier (Engine.crawler s)) →
         v = Frontier.normalize d ∨ ∃ link, v = Frontier.normalize link ∧ on_site d link).
  { apply (run_keeps (λ s,
      domain (Engine.crawler s) = d ∧
      ∀ v, v ∈ seen_urls (frontier (Engine.crawler s)) →
           v = Frontier.normalize d ∨ ∃ link, v = Frontier.normalize link ∧ on_site d link)).
    - apply inv_start.
    - split; [done|]. intros v Hv. left.
      change (frontier (Engine.crawler (Engine.start d m n)))
        with (Frontier.add d Frontier.new) in Hv.
      rewrite seen_add in Hv. set_solver.
    - intros s [i r] Hinv [Hd Hseen].
      destruct (step_spec k s i r Hinv) as
        [->|[(p & Hc & _)|[(url & f & Hget & _ & _ & Hc & _)|(url & _ & Hc & _)]]];
        [done | ..]; rewrite Hc.
      + done.
      + simpl. split; [done|]. intros v Hv. apply Hseen.
        unfold Frontier.get in Hget. destruct (queue (frontier (Engine.crawler s))); [done|].
        by injection Hget as _ <-.
      + destruct (extends_process_url k (Engine.crawler s) url r) as [Hd' _ _ _ _ _].
        split; [congruence|]. intros v Hv.
        destruct (process_url_admits k (Engine.crawler s) url r) as (urls & Hf & Hadm).
        rewrite Hf in Hv. apply seen_add_all in Hv as [Hv|Hv]; [by apply Hseen|].
        apply list_elem_of_fmap in Hv as (link & -> & Hl).
        right. exists link. split; [done|]. rewrite <- Hd.
        eapply should_crawl_of_on_site. by apply Hadm. }
  pose proof (inv_run k _ schedule (inv_start d m n)) as [_ Hvs _ Hdisp _ _ _ _].
  apply H, Hvs, Hdisp, Hu.
Qed.

Lemma crawl_stays_on_site_witness :
  "https://shop.example/p/123"
    ∈ Engine.dispatched
        (Engine.trace (Engine.run Generic (Engine.start "https://shop.example/" 1000 1)
                         scenario)) ∧
  ("https://shop.example/p/123" = Frontier.normalize "https://shop.example/" ∨
   ∃ link, "https://shop.example/p/123" = Frontier.normalize link ∧
           on_site "https://shop.example/" link).
Proof.
  assert (H : "https://shop.example/p/123"
                ∈ Engine.dispatched
                    (Engine.trace (Engine.run Generic
                       (Engine.start "https://shop.example/" 1000 1) scenario))).
  { vm_compute. set_solver. }
  split; [exact H|].
  exact (crawl_stays_on_site Generic "https://shop.example/" 1000 1 scenario
           "https://shop.example/p/123" H).
Defined.

Lemma run_without_workers k s schedule :
  Engine.workers s = [] → Engine.run k s schedule = s.
Proof.
  intros Hws. induction schedule as [|[i r] schedule IH]; [done|].
  change (Engine.run k s ((i, r) :: schedule))
    with (Engine.run k (Engine.step k s (i, r)) schedule).
  rewrite step_idle; [done | by rewrite Hws].
Qed.

(** X16: the degenerate settings do nothing and raise nothing: with
    [max_urls] not positive no URL is fetched and no product is recorded,
    and with [concurrency] not positive there is no worker and no step. *)
Theorem degenerate_settings
    (k : site) (d : string) (m n : Z) (schedule : list (nat * fetch_result)) :
  let s := Engine.run k (Engine.start d m n) schedule in
  ((m ≤ 0)%Z → Engine.dispatched (Engine.trace s) = [] ∧ product_urls (Engine.crawler s) = ∅) ∧
  ((n ≤ 0)%Z → s = Engine.start d m n).
Proof.
  intros s. split.
  - intros Hm.
    destruct (run_products_budget k d m n schedule) as [[Hsub _] [_ Hb]].
    pose proof (inv_run k _ schedule (inv_start d m n)) as [_ _ _ _ _ Hcnt _ _].
    assert (Hv : visited_urls (Engine.crawler s) = ∅)
      by (apply leibniz_equiv, size_empty_inv; subst s; lia).
    split.
    + apply length_zero_iff_nil. fold s in Hcnt. rewrite Hcnt, Hv. apply size_empty.
    + fold s in Hsub. rewrite Hv in Hsub. set_solver.
  - intros Hn. apply run_without_workers. simpl.
    by replace (Z.to_nat n) with 0%nat by lia.
Qed.

Lemma degenerate_settings_witness :
  (0 ≤ 0)%Z ∧
  Engine.dispatched (Engine.trace (Engine.run NykaaSite
     (Engine.start "https://nykaafashion.com/" 0 5) [(0%nat, TransportError)])) = [].
Proof.
  split; [lia|].
  apply (proj1 (degenerate_settings NykaaSite "https://nykaafashion.com/" 0 5
                  [(0%nat, TransportError)])). lia.
Defined.

Lemma first_live_Some ws i :
  first_live ws = Some i → ∃ w, ws !! i = Some w ∧ live w = true.
Proof.
  revert i. induction ws as [|x ws IH]; intros i; simpl; [done|].
  destruct (live x) eqn:Hx.
  - intros [= <-]. by exists x.
  - destruct (first_live ws) as [j|]; simpl; [|done].
    intros [= <-]. by apply IH.
Qed.

Lemma first_live_None ws :
  first_live ws = None → forallb (λ w, negb (live w)) ws = true.
Proof.
  induction ws as [|x ws IH]; simpl; [done|].
  destruct (live x); [done|]. destruct (first_live ws); [done|]. intros _. by apply IH.
Qed.

Lemma drive_is_run k fetch fuel s :
  ∃ schedule, drive k fetch fuel s = Engine.run k s schedule.
Proof.
  revert s. induction fuel as [|fuel IH]; intros s; cbn [drive]; [by exists []|].
  destruct (first_live (Engine.workers s)) as [i|]; [|by exists []].
  cbn zeta.
  match goal with |- ∃ _, drive _ _ _ (Engine.step _ _ ?a) = _ =>
    destruct (IH (Engine.step k s a)) as [schedule Hs]; exists (a :: schedule) end.
  by rewrite Hs.
Qed.

Lemma drive_ends k fetch fuel s :
  Engine.inv s → (potential s ≤ fuel)%nat →
  first_live (Engine.workers (drive k fetch fuel s)) = None.
Proof.
  revert s. induction fuel as [|fuel IH]; intros s Hinv Hp; cbn [drive].
  - destruct (first_live (Engine.workers s)) as [i|] eqn:Hi; [|done].
    destruct (first_live_Some _ _ Hi) as (w & Hw & Hl).
    destruct (step_live k s i TransportError w Hinv Hw Hl) as [_ Hlt]. lia.
  - destruct (first_live (Engine.workers s)) as [i|] eqn:Hi; [|done].
    destruct (first_live_Some _ _ Hi) as (w & Hw & Hl). cbn zeta.
    match goal with |- first_live (Engine.workers (drive _ _ _ (Engine.step _ _ (_, ?r)))) = _ =>
      destruct (step_live k s i r w Hinv Hw Hl) as [_ Hlt];
      apply IH; [by apply inv_step | lia] end.
Qed.

Lemma run_never_crashes k s schedule i :
  Engine.workers s !! i ≠ Some Engine.Crashed →
  Engine.workers (Engine.run k s schedule) !! i ≠ Some Engine.Crashed.
Proof.
  revert s. induction schedule as [|a schedule IH]; intros s Hs; simpl; [done|].
  apply IH. by apply step_never_crashes.
Qed.

(** X17: [crawl] returns: with [3 * max_urls + concurrency] steps of fuel
    (negative values counting as 0), whatever the class and the transport,
    the run in which the first worker that can move always does ends with
    every worker gone from its loop, and [crawl] gives the product URLs of
    that run, at most [max_urls] of them. *)
Theorem crawl_returns
    (k : site) (d : string) (m n : Z) (fetch : string → fetch_result) :
  ∃ schedule,
    let s := Engine.run k (Engine.start d m n) schedule in
    crawl k d m n fetch (3 * Z.to_nat m + Z.to_nat n)
      = Some (product_urls (Engine.crawler s)) ∧
    (∀ w, w ∈ Engine.workers s → w = Engine.Exited) ∧
    (size (product_urls (Engine.crawler s)) ≤ Z.to_nat m)%nat.
Proof.
  destruct (drive_is_run k fetch (3 * Z.to_nat m + Z.to_nat n) (Engine.start d m n))
    as [schedule Hs].
  exists schedule. intros s.
  assert (Hend : first_live (Engine.workers s) = None).
  { subst s. rewrite <- Hs. apply drive_ends; [apply inv_start|].
    by rewrite potential_start. }
  split_and!.
  - unfold crawl. rewrite Hs. fold s. by rewrite (first_live_None _ Hend).
  - intros w Hw. apply list_elem_of_lookup in Hw as [i Hi].
    pose proof (first_live_None _ Hend) as Hall.
    rewrite forallb_forall in Hall. specialize (Hall w).
    assert (Hnl : negb (live w) = true).
    { apply Hall. apply list_elem_of_In. by eapply list_elem_of_lookup_2. }
    destruct w; try done. exfalso.
    apply (run_never_crashes k (Engine.start d m n) schedule i); [|done].
    simpl. by intros [? _]%lookup_replicate.
  - destruct (run_products_budget k d m n schedule) as [[Hsub _] [_ Hb]].
    apply subseteq_size in Hsub. fold s in Hsub, Hb. lia.
Qed.

Example crawl_scenario :
  crawl Generic "https://shop.example/" 1000 5 scenario_fetch 3005
  = Some {[ "https://shop.example/p/123" ]}.
Proof. by vm_compute. Qed.

(** ** What is recorded *)

Lemma base_try_records extract should c url r :
  product_urls (fst (Base.process_url_try extract should c url r)) =
  if generic_positive url r then product_urls c ∪ {[url]} else product_urls c.
Proof.
  unfold Base.process_url_try, generic_positive, page_of.
  destruct r as [|status [[html soup]|]]; simpl; [done | | by destruct (_ =? _)%Z].
  destruct (status =? 200)%Z; simpl; [|done].
  destruct (ProductIdentifier.is_product_page url html soup) as [b|]; simpl; [|done].
  assert (Hb : product_urls (if b then add_product url c else c)
               = if b then product_urls c ∪ {[url]} else product_urls c) by by destruct b.
  destruct (extract soup url) as [links|]; simpl; [|done].
  by destruct (enqueue_links _ _ _).
Qed.

Lemma process_url_records_eq k c url r :
  product_urls (fst (process_url k c url r)) =
  if records k url r then product_urls c ∪ {[url]} else product_urls c.
Proof.
  destruct k; cbn [process_url records].
  - apply base_try_records.
  - unfold Virgio.process_url, Base.process_url, Base.process_url_with. cbn [fst].
    pose proof (base_try_records Base.extract_links (Base.should_crawl (domain c)) c url r) as H.
    destruct (generic_positive url r), (_ && _); cbn [orb product_urls add_product];
      rewrite ?H; set_solver.
  - unfold Tatacliq.process_url, Tatacliq.process_url_try, page_of. cbn [fst].
    destruct r as [|status [[html soup]|]]; [done | | by destruct (_ =? _)%Z].
    destruct (status =? 200)%Z; cbn [negb]; [|done].
    set (c1 := add_if_any_pattern _ url c).
    set (c2 := if Tatacliq._check_product_metadata soup then add_product url c1 else c1).
    set (c3 := if Tatacliq._check_product_scripts html then add_product url c2 else c2).
    assert (H3 : product_urls c3 =
                 if existsb (λ p, Re.search p url) Tatacliq.tatacliq_product_patterns
                    || Tatacliq._check_product_metadata soup
                    || Tatacliq._check_product_scripts html
                 then product_urls c ∪ {[url]} else product_urls c).
    { subst c3 c2 c1. unfold add_if_any_pattern.
      destruct (existsb _ _), (Tatacliq._check_product_metadata soup),
               (Tatacliq._check_product_scripts html); cbn [orb product_urls add_product];
        set_solver. }
    destruct (Tatacliq.extract_links _ soup url) as [links|]; [|done].
    by destruct (enqueue_links _ _ _).
  - unfold Nykaa.process_url, Nykaa.process_url_try, page_of. cbn [fst].
    destruct r as [|status [[html soup]|]]; [done | | by destruct (_ =? _)%Z].
    destruct (status =? 200)%Z; cbn [negb]; [|done].
    set (c1 := add_if_any_pattern _ url c).
    set (c2 := if Nykaa._is_product_page soup html then add_product url c1 else c1).
    assert (H2 : product_urls c2 =
                 if existsb (λ p, Re.search p url) Nykaa.nykaa_product_patterns
                    || Nykaa._is_product_page soup html
                 then product_urls c ∪ {[url]} else product_urls c).
    { subst c2 c1. unfold add_if_any_pattern.
      destruct (existsb _ _), (Nykaa._is_product_page soup html);
        cbn [orb product_urls add_product]; set_solver. }
    destruct (Nykaa.extract_links soup url) as [links|]; [|done].
    by destruct (Nykaa.enqueue_links _ _ _).
  - unfold Westside.process_url, Base.process_url_with, add_if_any_pattern. cbn [fst].
    pose proof (base_try_records (Westside.extract_links (domain c))
                  (Westside.should_crawl (domain c)) c url r) as H.
    destruct (generic_positive url r), (existsb _ _); cbn [orb product_urls add_product];
      rewrite ?H; set_solver.
Qed.

(** X18: what each class records for the URL it processes, for every
    answer of the transport: the generic crawler the verdict of the generic
    classifier on a page with status 200; Virgio and Westside that verdict
    or their own URL patterns; TataCliq and Nykaa their own URL patterns
    and page checks on a page with status 200, without the generic
    classifier. An exception during link extraction changes nothing of
    it. *)
Theorem what_each_class_records
    (k : site) (c : Crawler) (url : string) (r : fetch_result) :
  product_urls (fst (process_url k c url r)) =
  if records k url r then product_urls c ∪ {[url]} else product_urls c.
Proof. apply process_url_records_eq. Qed.

(** X19: the Westside and Virgio crawlers test their URL patterns after
    [super().process_url] has returned, whatever happened there: a URL with
    [/product/] is recorded by the Westside crawler, and a listing URL that
    ends in [-p] and digits by the Virgio crawler, also when the fetch
    failed. *)
Theorem url_patterns_recorded_on_any_answer (c : Crawler) (url : string) (r : fetch_result) :
  (Py.contains "/product/" url = true →
   url ∈ product_urls (fst (process_url WestsideSite c url r))) ∧
  (Re.search Virgio.listing url = true → Re.search Virgio.product_suffix url = true →
   url ∈ product_urls (fst (process_url VirgioSite c url r))).
Proof.
  split.
  - intros H. rewrite process_url_records_eq.
    assert (records WestsideSite url r = true) as ->; [|set_solver].
    cbn [records]. apply orb_true_iff. right.
    change Westside.westside_product_patterns
      with (Re.pat (Re.lit "/product/") :: tail Westside.westside_product_patterns).
    cbn [existsb]. by rewrite search_lit, H.
  - intros H1 H2. rewrite process_url_records_eq.
    assert (records VirgioSite url r = true) as ->; [|set_solver].
    cbn [records]. rewrite H1, H2. apply orb_true_r.
Qed.

Lemma url_patterns_recorded_on_any_answer_witness :
  Py.contains "/product/" "https://www.westside.com/product/1" = true ∧
  "https://www.westside.com/product/1"
    ∈ product_urls (fst (process_url WestsideSite westside_crawler
                           "https://www.westside.com/product/1" TransportError)).
Proof.
  split; [reflexivity|].
  apply (proj1 (url_patterns_recorded_on_any_answer westside_crawler
                  "https://www.westside.com/product/1" TransportError)).
  reflexivity.
Defined.

(** ** More on extraction and on the page markers *)

(** X20: the generic extraction returns, in document order, the addresses
    that [urljoin] gives for the anchors with an [href] that is neither empty
    nor a [javascript:] address; there are at most as many as anchors. *)
Theorem extracted_links_come_from_anchors (soup : document) (base_url : string)
    (links : list string) :
  Base.extract_links soup base_url = Some links →
  (List.length links
   ≤ List.length (Soup.find_all ["a"] (Soup.attr_is "href" (fun _ => true)) soup))%nat ∧
  ∀ link, link ∈ links →
    ∃ anchor href,
      anchor ∈ Soup.find_all ["a"] (Soup.attr_is "href" (fun _ => true)) soup ∧
      Soup.get "href" anchor = Some href ∧
      href ≠ "" ∧ Py.startswith "javascript:" href = false ∧
      Urllib.urljoin base_url href = Some link.
Proof.
  unfold Base.extract_links.
  assert (Hall : ∀ a, a ∈ Soup.find_all ["a"] (Soup.attr_is "href" (fun _ => true)) soup →
                      is_Some (Soup.get "href" a)).
  { intros a Ha. apply list_elem_of_In in Ha. unfold Soup.find_all, Soup.select in Ha.
    apply filter_In in Ha as [_ Ha]. apply andb_true_iff in Ha as [_ Ha].
    unfold Soup.attr_is in Ha. by destruct (Soup.get "href" a). }
  revert links Hall.
  induction (Soup.find_all ["a"] (Soup.attr_is "href" (fun _ => true)) soup)
    as [|a anchors IH]; intros links Hall; cbn [Base.join_anchors].
  - intros [= <-]. split; [done|]. intros link Hl. inversion Hl.
  - destruct (Hall a) as [href Hhref]; [set_solver|]. rewrite Hhref. cbn [default from_option id].
    assert (Hall' : ∀ a', a' ∈ anchors → is_Some (Soup.get "href" a')) by set_solver.
    destruct (negb (Py.truthy href) || Py.startswith "javascript:" href) eqn:Hskip.
    + intros H. destruct (IH links Hall' H) as [Hlen Hfrom]. split; [simpl; lia|].
      intros link Hl. destruct (Hfrom link Hl) as (a' & h' & Ha' & ?).
      exists a', h'. split; [set_solver | done].
    + apply orb_false_iff in Hskip as [Ht Hjs]. apply negb_false_iff in Ht.
      destruct (Urllib.urljoin base_url href) as [absolute_url|] eqn:Hjoin; [|done].
      destruct (Base.join_anchors base_url anchors) as [rest|] eqn:Hrest; [|done].
      cbn. intros [= <-]. destruct (IH rest Hall' eq_refl) as [Hlen Hfrom].
      split; [simpl; lia|].
      intros link [->|Hl]%elem_of_cons.
      * exists a, href. split_and!; [set_solver | done | by destruct href | done | done].
      * destruct (Hfrom link Hl) as (a' & h' & Ha' & ?).
        exists a', h'. split; [set_solver | done].
Qed.

Lemma extracted_links_come_from_anchors_witness :
  Base.extract_links home_soup "https://shop.example" = Some ["https://shop.example/p/123"] ∧
  (List.length ["https://shop.example/p/123"]
   ≤ List.length (Soup.find_all ["a"] (Soup.attr_is "href" (fun _ => true)) home_soup))%nat.
Proof.
  split; [by vm_compute|].
  apply (extracted_links_come_from_anchors home_soup "https://shop.example"
           ["https://shop.example/p/123"]).
  by vm_compute.
Defined.

(** X21: the page markers of the TataCliq and Nykaa crawlers are tests on
    the raw text of the page: an answer with status 200 whose text holds
    [productDetails] or [pdpPageData] is recorded by the TataCliq crawler,
    and one whose text holds ["@type":"Product"] by the Nykaa crawler,
    whatever the URL and the document. *)
Theorem page_text_markers_suffice
    (c : Crawler) (url html : string) (soup : document) :
  (Py.contains "productDetails" html = true ∨ Py.contains "pdpPageData" html = true →
   url ∈ product_urls
           (fst (process_url TatacliqSite c url (Response 200 (Some (html, soup)))))) ∧
  (Py.contains product_type_decl html = true →
   url ∈ product_urls
           (fst (process_url NykaaSite c url (Response 200 (Some (html, soup)))))).
Proof.
  split.
  - intros H. rewrite process_url_records_eq.
    assert (records TatacliqSite url (Response 200 (Some (html, soup))) = true) as ->;
      [|set_solver].
    cbn [records page_of Z.eqb Pos.eqb].
    assert (Tatacliq._check_product_scripts html = true) as ->; [|apply orb_true_r].
    unfold Tatacliq._check_product_scripts.
    change Tatacliq.script_patterns
      with (firstn 2 Tatacliq.script_patterns
            ++ [Re.pat (Re.lit "productDetails"); Re.pat (Re.lit "pdpPageData")])%list.
    rewrite existsb_app. apply orb_true_iff. right.
    cbn [existsb]. rewrite !search_lit. destruct H as [-> | ->]; [done | apply orb_true_r].
  - intros H. rewrite process_url_records_eq.
    assert (records NykaaSite url (Response 200 (Some (html, soup))) = true) as ->;
      [|set_solver].
    cbn [records page_of Z.eqb Pos.eqb].
    assert (Nykaa._is_product_page soup html = true) as ->; [|apply orb_true_r].
    unfold Nykaa._is_product_page. fold product_type_decl.
    change (dq ++ "@type" ++ dq ++ ":" ++ dq ++ "Product" ++ dq) with product_type_decl.
    rewrite H, orb_true_r.
    destruct (Py.nonempty _); [done|]. destruct (_ <? _)%nat; [done|].
    by destruct (Py.nonempty _).
Qed.

Lemma page_text_markers_suffice_witness :
  Py.contains "pdpPageData" "var pdpPageData = 1" = true ∧
  "https://www.tatacliq.com/sale"
    ∈ product_urls
        (fst (process_url TatacliqSite (new_crawler "https://www.tatacliq.com/" 1000 5)
                "https://www.tatacliq.com/sale"
                (Response 200 (Some ("var pdpPageData = 1", [Text "var pdpPageData = 1"]))))).
Proof.
  split; [reflexivity|].
  apply (proj1 (page_text_markers_suffice (new_crawler "https://www.tatacliq.com/" 1000 5)
                  "https://www.tatacliq.com/sale" "var pdpPageData = 1"
                  [Text "var pdpPageData = 1"])).
  right. reflexivity.
Defined.
